(** * smartreader: the Hacker News story store, its content queue and listing

    A shallow embedding of [hn_new.py]: the content codec
    ([compress_content] / [decompress_content]), the teaser, the blocking
    classifier ([detect_blocking]), the [Database] operations on the SQLite
    tables, one iteration of [content_worker], and the listing
    [Database.get_stories].

    Conventions.
    - In the store model a Python [str] is a [string]; its characters are
      the code points below 256. SQLite stores every such text, and
      [compress_content] never raises on one ([compress_content_latin1]).
      [None] is [option]'s [None]; SQL [NULL] likewise.
    - [compress_content], [decompress_content] and [detect_blocking] are
      also given on any [str], as the list of its code points ([text]): a
      lone surrogate has no UTF-8 encoding, and [re.IGNORECASE] and
      [str.lower()] differ at U+0130.
    - Integers are [Z]. [sqlite3] binds the integers of the signed 64-bit
      range; where a caller passes an integer from outside the program (the
      ids of the dismiss and read-later routes, the limit and cursor of the
      listing) the operation raises as the code does. The integers of the
      rows are taken to be in range.
    - SQLite tables keyed by their primary key are [gmap]s; [usage_log] is a
      list in insertion order.
    - [CURRENT_TIMESTAMP] and [time.time()] are one clock, in seconds, passed
      to every operation as [now].
    - [zlib], [base64], the UTF-8 codec and [str.lower()] on texts are
      library code: they enter as the classes [Codec], [Utf8] and
      [CaseMapping], their contracts as [CodecLaws], [Utf8Laws] and
      [CaseMappingLaws]. *)

From Stdlib Require Import ZArith QArith Strings.String Strings.Ascii Strings.Byte.
From Stdlib Require Import List Bool Lia DecimalString.
From stdpp Require Import base option list gmap sets strings sorting.

Local Open Scope string_scope.
Local Open Scope list_scope.
Local Open Scope Z_scope.

(** ** Python string operations *)

Module PyStr.

(** [len(s)] *)
Definition len (s : string) : nat := String.length s.

(** [s[:n]] *)
Fixpoint take (n : nat) (s : string) : string :=
  match n, s with
  | O, _ => EmptyString
  | S _, EmptyString => EmptyString
  | S n', String c s' => String c (take n' s')
  end.

(** [s[n:]] *)
Fixpoint drop (n : nat) (s : string) : string :=
  match n, s with
  | O, _ => s
  | S _, EmptyString => EmptyString
  | S n', String _ s' => drop n' s'
  end.

(** [s.startswith(p)] *)
Fixpoint startswith (p s : string) : bool :=
  match p, s with
  | EmptyString, _ => true
  | String _ _, EmptyString => false
  | String a p', String b s' => if Ascii.eqb a b then startswith p' s' else false
  end.

(** [p in s] *)
Fixpoint contains (p s : string) : bool :=
  startswith p s ||
  match s with
  | EmptyString => false
  | String _ s' => contains p s'
  end.

(** [c.lower()] on one character: A-Z, and the upper-case letters of
    Latin-1 (0xC0-0xDE without the multiplication sign 0xD7). *)
Definition lower_char (c : ascii) : ascii :=
  let n := nat_of_ascii c in
  if ((65 <=? n)%nat && (n <=? 90)%nat)
     || ((192 <=? n)%nat && (n <=? 222)%nat && negb (n =? 215)%nat)
  then ascii_of_nat (n + 32) else c.

(** [s.lower()] *)
Fixpoint lower (s : string) : string :=
  match s with
  | EmptyString => EmptyString
  | String c s' => String (lower_char c) (lower s')
  end.

(** [c.isspace()]: TAB..CR, FS..US, space, NEL and NBSP. *)
Definition isspace (c : ascii) : bool :=
  let n := nat_of_ascii c in
  ((9 <=? n)%nat && (n <=? 13)%nat) || ((28 <=? n)%nat && (n <=? 32)%nat)
  || (n =? 133)%nat || (n =? 160)%nat.

(** [s.lstrip()] *)
Fixpoint lstrip (s : string) : string :=
  match s with
  | EmptyString => EmptyString
  | String c s' => if isspace c then lstrip s' else s
  end.

(** [s.rstrip()] *)
Fixpoint rstrip (s : string) : string :=
  match s with
  | EmptyString => EmptyString
  | String c s' =>
      match rstrip s' with
      | EmptyString => if isspace c then EmptyString else String c EmptyString
      | r => String c r
      end
  end.

(** [s.strip()] *)
Definition strip (s : string) : string := lstrip (rstrip s).

(** Truthiness of a string: [if s:] *)
Definition truthy (s : string) : bool :=
  match s with EmptyString => false | _ => true end.

(** [str(n)] for an integer *)
Definition str_of_Z (n : Z) : string := NilZero.string_of_int (Z.to_int n).

End PyStr.

(** ** Exceptions *)

(** The exceptions of the model: [sqlite3.IntegrityError] with its message,
    the [OverflowError] that [sqlite3] raises when it binds a Python [int]
    outside the signed 64-bit range, and [UnicodeEncodeError]. *)
Inductive exn :=
| IntegrityError (msg : string)
| OverflowError
| UnicodeEncodeError.

(** The integers [sqlite3] binds as a parameter: [-2**63 <= n < 2**63]. *)
Definition fits_int64 (n : Z) : bool := (- 2 ^ 63 <=? n) && (n <? 2 ^ 63).

Inductive result (A : Type) :=
| Ok (a : A)
| Raise (e : exn).
Arguments Ok {A} a.
Arguments Raise {A} e.

(** ** Library codecs *)

(** [str.encode("utf-8")] / [bytes.decode("utf-8")], [zlib.compress(_, level=6)]
    / [zlib.decompress], [base64.b64encode(_).decode("ascii")] /
    [base64.b64decode]. A decoder that raises returns [None]. *)
Class Codec := {
  utf8_encode : string -> list byte;
  utf8_decode : list byte -> option string;
  zlib_compress : list byte -> list byte;
  zlib_decompress : list byte -> option (list byte);
  b64encode : list byte -> string;
  b64decode : string -> option (list byte);
}.

(** The libraries' contracts: decoding an encoding gives the input back. *)
Class CodecLaws (C : Codec) : Prop := {
  utf8_decode_encode : forall s, utf8_decode (utf8_encode s) = Some s;
  zlib_decompress_compress : forall b, zlib_decompress (zlib_compress b) = Some b;
  b64decode_encode : forall b, b64decode (b64encode b) = Some b;
}.

(** A small codec to run the model on examples: bytes are the characters,
    "deflate" reverses the byte string. *)
Definition sample_codec : Codec := {|
  utf8_encode := list_byte_of_string;
  utf8_decode := fun b => Some (string_of_list_byte b);
  zlib_compress := @rev byte;
  zlib_decompress := fun b => Some (rev b);
  b64encode := string_of_list_byte;
  b64decode := fun s => Some (list_byte_of_string s);
|}.

Definition sample_codec_laws : CodecLaws sample_codec := {|
  utf8_decode_encode := fun s =>
    f_equal Some (string_of_list_byte_of_string s) : @utf8_decode sample_codec (@utf8_encode sample_codec s) = Some s;
  zlib_decompress_compress := fun b =>
    f_equal Some (rev_involutive b) : @zlib_decompress sample_codec (@zlib_compress sample_codec b) = Some b;
  b64decode_encode := fun b =>
    f_equal Some (list_byte_of_string_of_list_byte b) : @b64decode sample_codec (@b64encode sample_codec b) = Some b;
|}.

(** ** Content compression *)

Definition TEASER_LENGTH : nat := 300.
Definition COMPRESS_PREFIX : string := "z:".

Section Compression.
Context {C : Codec}.

(** [compress_content] and [decompress_content] on the strings of the
    store model, where the UTF-8 encoding never fails;
    [Text.compress_content] and [Text.decompress_content] below are the two
    functions on any text. *)
Definition compress_content (text : string) : string :=
  if negb (PyStr.truthy text) then text
  else
    let compressed := zlib_compress (utf8_encode text) in
    COMPRESS_PREFIX +:+ b64encode compressed.

Definition decompress_content (data : string) : string :=
  if negb (PyStr.truthy data) then data
  else if negb (PyStr.startswith COMPRESS_PREFIX data) then data
  else
    match b64decode (PyStr.drop (PyStr.len COMPRESS_PREFIX) data) with
    | Some compressed =>
        match zlib_decompress compressed with
        | Some raw =>
            match utf8_decode raw with
            | Some text => text
            | None => data
            end
        | None => data
        end
    | None => data
    end.

(** The teaser both [update_content] and the teaser migration compute from
    the decompressed text. *)
Definition make_teaser (text : string) : string :=
  let teaser := PyStr.strip (PyStr.take TEASER_LENGTH text) in
  if (TEASER_LENGTH <? PyStr.len text)%nat then teaser +:+ "..." else teaser.

End Compression.

(** ** Text as code points *)

(** [compress_content] receives the text the Hacker News API delivered and
    [detect_blocking] what a renderer returned: any Python [str]. These two
    functions depend on code points beyond Latin-1 (a lone surrogate has no
    UTF-8 encoding; [re.IGNORECASE] and [str.lower()] part ways at U+0130),
    so here a [str] is the list of its code points. *)
Definition text := list N.

(** [str.encode("utf-8")], which raises [UnicodeEncodeError] ([None]), and
    [bytes.decode("utf-8")] on any text. *)
Class Utf8 := {
  text_encode : text -> option (list byte);
  text_decode : list byte -> option text;
}.

Module Text.

(** The code points of a string of the store model. *)
Definition of_string (s : string) : text :=
  (fun a => N_of_ascii a) <$> list_ascii_of_string s.

(** The string of a text whose code points are all below 256. *)
Definition to_string (t : text) : option string :=
  if forallb (fun c => c <? 256)%N t
  then Some (string_of_list_ascii (ascii_of_N <$> t)) else None.

(** A surrogate, U+D800 to U+DFFF: the code points UTF-8 does not encode. *)
Definition surrogate (c : N) : bool := ((55296 <=? c) && (c <=? 57343))%N.

(** The text has a UTF-8 encoding. A [str] holds no code point above
    U+10FFFF; a list that holds one counts as not encodable. *)
Definition encodable (t : text) : bool :=
  forallb (fun c => negb (surrogate c) && (c <=? 1114111)%N) t.

(** [s.startswith(p)]: [s[:len(p)] == p]. *)
Definition startswith (p s : text) : bool := bool_decide (take (length p) s = p).

Section Compression.
Context {C : Codec} {T : Utf8}.

(** [compress_content], on any text: [text.encode("utf-8")] raises for a
    text with a surrogate, and nothing catches it. *)
Definition compress_content (text_ : text) : result text :=
  match text_ with
  | [] => Ok text_
  | _ =>
      match text_encode text_ with
      | None => Raise UnicodeEncodeError
      | Some raw =>
          Ok (of_string COMPRESS_PREFIX ++ of_string (b64encode (zlib_compress raw)))
      end
  end.

(** [decompress_content], on any text: every exception of the three
    decoders ends in [return data]. [base64.b64decode] of a [str] with a
    code point above 127 raises; below 256 that is left to [b64decode]. *)
Definition decompress_content (data : text) : text :=
  match data with
  | [] => data
  | _ =>
      if negb (startswith (of_string COMPRESS_PREFIX) data) then data
      else
        match to_string (drop (length (of_string COMPRESS_PREFIX)) data) ≫= b64decode with
        | Some compressed =>
            match zlib_decompress compressed with
            | Some raw =>
                match text_decode raw with
                | Some t => t
                | None => data
                end
            | None => data
            end
        | None => data
        end
  end.

End Compression.

End Text.

(** The contract of the UTF-8 codec: encoding fails exactly on a text that
    is not encodable, and decoding an encoding gives the text back. *)
Class Utf8Laws (T : Utf8) : Prop := {
  text_encode_None : forall s, text_encode s = None <-> Text.encodable s = false;
  text_decode_encode : forall s b, text_encode s = Some b -> text_decode b = Some s;
}.

(** A small encoding to run the model on examples: three bytes for each
    code point. *)
Definition sample_byte (n : N) : byte := default x00 (Byte.of_N n).

Definition three_bytes (c : N) : list byte :=
  [ sample_byte (c / 65536); sample_byte ((c / 256) mod 256); sample_byte (c mod 256) ]%N.

Fixpoint from_three_bytes (b : list byte) : text :=
  match b with
  | b2 :: b1 :: b0 :: rest =>
      (Byte.to_N b2 * 65536 + Byte.to_N b1 * 256 + Byte.to_N b0)%N
      :: from_three_bytes rest
  | _ => []
  end.

Definition sample_utf8 : Utf8 := {|
  text_encode := fun s => if Text.encodable s then Some (s ≫= three_bytes) else None;
  text_decode := fun b => Some (from_three_bytes b);
|}.

(** The codec of the store model that belongs to a UTF-8 codec on texts:
    a string is encoded as the text of its code points, and a decoded text
    is a string when its code points are below 256. *)
Definition latin1_codec (C : Codec) (T : Utf8) : Codec := {|
  utf8_encode := fun s => default [] (text_encode (Text.of_string s));
  utf8_decode := fun b => text_decode b ≫= Text.to_string;
  zlib_compress := @zlib_compress C;
  zlib_decompress := @zlib_decompress C;
  b64encode := @b64encode C;
  b64decode := @b64decode C;
|}.

(** [str.lower()] on any text: the full lower-case mapping of Unicode,
    library code. *)
Class CaseMapping := {
  str_lower : text -> text;
}.

(** [str.lower()] on one code point that is ASCII or U+0130 (capital I with
    dot above, whose lower case is [i] followed by U+0307). *)
Definition lower_point (c : N) : text :=
  if (c =? 304)%N then [105; 775]%N
  else if ((65 <=? c) && (c <=? 90))%N then [c + 32]%N
  else [c].

(** What the development uses of [str.lower()]: a text of ASCII characters
    and U+0130 is lowered code point by code point. *)
Class CaseMappingLaws (U : CaseMapping) : Prop := {
  str_lower_ascii_0130 :
    forall s, Forall (fun c => (c < 128)%N \/ c = 304%N) s ->
              str_lower s = s ≫= lower_point;
}.

(** A case mapping to run the model on examples: [lower_point] on every
    code point. *)
Definition sample_case_mapping : CaseMapping := {|
  str_lower := fun s => s ≫= lower_point;
|}.

(** ** Blocking detection *)

Definition BLOCKING_PATTERNS : list string :=
  [ "captcha"; "please verify"; "access denied"; "forbidden"; "rate limit";
    "too many requests"; "blocked"; "unusual traffic"; "security check";
    "ddos protection"; "challenge-platform"; "hcaptcha"; "recaptcha";
    "just a moment"; "checking your browser"; "enable javascript";
    "redirecting" ].

Definition MIN_CONTENT_LENGTH : nat := 200.
Definition MAX_RETRIES : Z := 3.

Module Regex.

(** [re.IGNORECASE] for a pattern character [p] of [BLOCKING_PATTERNS] (a
    lower-case ASCII letter, a space or a hyphen) against a code point [c]
    of the text: [c] is [p], or its upper-case letter, or one of the four
    code points the [re] module adds: U+0130 and U+0131 for [i], U+212A
    (Kelvin sign) for [k], U+017F (long s) for [s]. *)
Definition ignorecase_eq (p c : N) : bool :=
  ((c =? p)
   || ((97 <=? p) && (p <=? 122) && (c =? p - 32))
   || ((p =? 105) && ((c =? 304) || (c =? 305)))
   || ((p =? 107) && (c =? 8490))
   || ((p =? 115) && (c =? 383)))%N.

(** A literal matched at the start of [s] under [re.IGNORECASE]. *)
Fixpoint match_literal (p s : text) : bool :=
  match p, s with
  | [], _ => true
  | _ :: _, [] => false
  | a :: p', c :: s' => if ignorecase_eq a c then match_literal p' s' else false
  end.

(** [re.compile("|".join(alts), re.IGNORECASE).search(s)]: at each
    position, left to right, the alternatives in order. None of the
    patterns has a character that is special in a regular expression. *)
Fixpoint search (alts : list text) (s : text) : bool :=
  existsb (fun p => match_literal p s) alts ||
  match s with
  | [] => false
  | _ :: s' => search alts s'
  end.

End Regex.

Definition BLOCKING_REGEX (s : text) : bool :=
  Regex.search (Text.of_string <$> BLOCKING_PATTERNS) s.

Section Blocking.
Context {U : CaseMapping}.

Definition detect_blocking (content : text) : bool :=
  match content with
  | [] => false
  | _ =>
      if (length content <? MIN_CONTENT_LENGTH)%nat then
        if BLOCKING_REGEX content then true else false
      else
        let first_chunk := str_lower (take 2000 content) in
        if BLOCKING_REGEX first_chunk then
          if (3000 <? length content)%nat then false else true
        else false
  end.

End Blocking.

(** ** Data model: the SQLite tables *)

(** [stories.content_status] *)
Inductive status := Pending | Fetching | Retry | Done | Failed | Blocked | Skipped.

#[global] Instance status_eq_dec : EqDecision status.
Proof. solve_decision. Defined.

(** [content_status IN ('done', 'failed', 'blocked', 'skipped')] *)
Definition terminal (st : status) : bool :=
  match st with
  | Done | Failed | Blocked | Skipped => true
  | Pending | Fetching | Retry => false
  end.

(** A row of [stories] (with the two migrated column groups). *)
Record story := mkStory {
  id : Z;
  title : string;
  url : option string;
  domain : option string;
  by_ : option string;
  time : option Z;
  score : Z;
  descendants : Z;
  content : option string;
  content_status : status;
  content_attempts : Z;
  content_source : option string;
  browser_ms : Q;
  hit_front_page : Z;
  front_page_rank : option Z;
  created_at : Z;
  updated_at : Z;
  teaser : option string;
}.

(** A row of [fetched_urls], keyed by [url]. *)
Record cache_row := mkCache {
  cache_content_ : option string;
  cache_source : option string;
  cache_browser_ms : Q;
  fetched_at : Z;
}.

(** A row of [usage_log]. *)
Record usage_row := mkUsage {
  usage_story_id : Z;
  usage_url : option string;
  usage_browser_ms : Q;
  usage_source : option string;
  usage_created_at : Z;
}.

(** The store. [read_later], [dismissed] and [history] map a story id to the
    row's timestamp. The merit and demerit tables only feed the scores that
    the listing attaches to a row and are left out. *)
Record db := mkDb {
  stories : gmap Z story;
  fetched_urls : gmap string cache_row;
  usage_log : list usage_row;
  blocked_domains : gset string;
  blocked_words : gset string;
  read_later : gmap Z Z;
  dismissed : gmap Z Z;
  history : gmap Z Z;
}.

(** The story dict built by [parse_algolia_story] and [fetch_story_by_id]. *)
Record story_dict := mkDict {
  d_id : Z;
  d_title : string;
  d_url : option string;
  d_text : option string;
  d_domain : option string;
  d_by : option string;
  d_time : option Z;
  d_score : Z;
  d_descendants : Z;
}.

(** Column updates: [UPDATE stories SET col = v]. *)
Definition set_score (v : Z) (s : story) : story :=
  mkStory (id s) (title s) (url s) (domain s) (by_ s) (time s) v (descendants s)
    (content s) (content_status s) (content_attempts s) (content_source s)
    (browser_ms s) (hit_front_page s) (front_page_rank s) (created_at s)
    (updated_at s) (teaser s).

Definition set_descendants (v : Z) (s : story) : story :=
  mkStory (id s) (title s) (url s) (domain s) (by_ s) (time s) (score s) v
    (content s) (content_status s) (content_attempts s) (content_source s)
    (browser_ms s) (hit_front_page s) (front_page_rank s) (created_at s)
    (updated_at s) (teaser s).

Definition set_content (v : option string) (s : story) : story :=
  mkStory (id s) (title s) (url s) (domain s) (by_ s) (time s) (score s)
    (descendants s) v (content_status s) (content_attempts s) (content_source s)
    (browser_ms s) (hit_front_page s) (front_page_rank s) (created_at s)
    (updated_at s) (teaser s).

Definition set_content_status (v : status) (s : story) : story :=
  mkStory (id s) (title s) (url s) (domain s) (by_ s) (time s) (score s)
    (descendants s) (content s) v (content_attempts s) (content_source s)
    (browser_ms s) (hit_front_page s) (front_page_rank s) (created_at s)
    (updated_at s) (teaser s).

Definition set_content_attempts (v : Z) (s : story) : story :=
  mkStory (id s) (title s) (url s) (domain s) (by_ s) (time s) (score s)
    (descendants s) (content s) (content_status s) v (content_source s)
    (browser_ms s) (hit_front_page s) (front_page_rank s) (created_at s)
    (updated_at s) (teaser s).

Definition set_content_source (v : option string) (s : story) : story :=
  mkStory (id s) (title s) (url s) (domain s) (by_ s) (time s) (score s)
    (descendants s) (content s) (content_status s) (content_attempts s) v
    (browser_ms s) (hit_front_page s) (front_page_rank s) (created_at s)
    (updated_at s) (teaser s).

Definition set_browser_ms (v : Q) (s : story) : story :=
  mkStory (id s) (title s) (url s) (domain s) (by_ s) (time s) (score s)
    (descendants s) (content s) (content_status s) (content_attempts s)
    (content_source s) v (hit_front_page s) (front_page_rank s) (created_at s)
    (updated_at s) (teaser s).

Definition set_updated_at (v : Z) (s : story) : story :=
  mkStory (id s) (title s) (url s) (domain s) (by_ s) (time s) (score s)
    (descendants s) (content s) (content_status s) (content_attempts s)
    (content_source s) (browser_ms s) (hit_front_page s) (front_page_rank s)
    (created_at s) v (teaser s).

Definition set_teaser (v : option string) (s : story) : story :=
  mkStory (id s) (title s) (url s) (domain s) (by_ s) (time s) (score s)
    (descendants s) (content s) (content_status s) (content_attempts s)
    (content_source s) (browser_ms s) (hit_front_page s) (front_page_rank s)
    (created_at s) (updated_at s) v.

(** Table replacement in the store. *)
Definition with_stories (t : gmap Z story) (d : db) : db :=
  mkDb t (fetched_urls d) (usage_log d) (blocked_domains d) (blocked_words d)
    (read_later d) (dismissed d) (history d).

Definition with_fetched_urls (t : gmap string cache_row) (d : db) : db :=
  mkDb (stories d) t (usage_log d) (blocked_domains d) (blocked_words d)
    (read_later d) (dismissed d) (history d).

Definition with_usage_log (t : list usage_row) (d : db) : db :=
  mkDb (stories d) (fetched_urls d) t (blocked_domains d) (blocked_words d)
    (read_later d) (dismissed d) (history d).

Definition with_read_later (t : gmap Z Z) (d : db) : db :=
  mkDb (stories d) (fetched_urls d) (usage_log d) (blocked_domains d)
    (blocked_words d) t (dismissed d) (history d).

Definition with_dismissed (t : gmap Z Z) (d : db) : db :=
  mkDb (stories d) (fetched_urls d) (usage_log d) (blocked_domains d)
    (blocked_words d) (read_later d) t (history d).

Definition with_history (t : gmap Z Z) (d : db) : db :=
  mkDb (stories d) (fetched_urls d) (usage_log d) (blocked_domains d)
    (blocked_words d) (read_later d) (dismissed d) t.

(** [UPDATE stories SET ... WHERE id = ?]: no row, no change. *)
Definition update_story (story_id : Z) (f : story -> story) (d : db) : db :=
  with_stories (alter f story_id (stories d)) d.

(** [UPDATE stories SET ... WHERE cond]: every matching row; [rowcount] is
    the number of rows matched. *)
Definition update_where (cond : story -> bool) (f : story -> story) (d : db) : Z * db :=
  (Z.of_nat (size (filter (fun kv => cond kv.2 = true) (stories d))),
   with_stories ((fun s => if cond s then f s else s) <$> stories d) d).

(** SQLite compares with [NULL] as unknown: [a < b] holds for two values only. *)
Definition sql_lt (a b : option Z) : bool :=
  match a, b with Some x, Some y => x <? y | _, _ => false end.

Definition sql_gt (a b : option Z) : bool := sql_lt b a.

Definition sql_eq (a b : option Z) : bool :=
  match a, b with Some x, Some y => x =? y | _, _ => false end.

(** [ORDER BY col ASC] puts [NULL] first: [NULL] sorts below every value. *)
Definition order_lt (a b : option Z) : bool :=
  match a, b with
  | None, None => false
  | None, Some _ => true
  | Some _, None => false
  | Some x, Some y => x <? y
  end.

Definition order_eq (a b : option Z) : bool :=
  match a, b with
  | None, None => true
  | Some x, Some y => x =? y
  | _, _ => false
  end.

(** The row a claim returns: [RETURNING id, url, domain, content_attempts]. *)
Record job := mkJob {
  job_id : Z;
  job_url : option string;
  job_domain : option string;
  job_content_attempts : Z;
}.

(** A row of the listing: the story row the returned dict is built from
    (the dict carries a subset of its columns) and the four join flags. *)
Record listed := mkListed {
  row : story;
  is_read_later : bool;
  is_dismissed : bool;
  is_read : bool;
  is_domain_blocked : bool;
}.

(** The dict [get_stories] returns. *)
Record page := mkPage {
  page_stories : list listed;
  has_more : bool;
  next_cursor : option string;
}.

(** ** The [Database] operations *)

Module Database.
Section Operations.
Context {C : Codec}.

(** Truthiness of an optional string: [None] and [""] are false. *)
Definition truthy_opt (o : option string) : bool :=
  match o with Some s => PyStr.truthy s | None => false end.

(** *** Story operations *)

(** The row [INSERT INTO stories (id, title, url, domain, by, time, score,
    descendants ...)] creates; the other columns take their defaults. *)
Definition new_story (now : Z) (st : story_dict) (c : option string)
    (cs : status) (src : option string) : story :=
  mkStory (d_id st) (d_title st) (d_url st) (d_domain st) (d_by st) (d_time st)
    (d_score st) (d_descendants st) c cs 0 src 0%Q 0 None now now None.

(** [upsert_story] where it returns: for a dict whose values SQLite can
    store. (For an integer outside the 64-bit range, or a text with a lone
    surrogate, the call raises before it writes, in [compress_content] or
    when the parameters are bound, and the store is left as it was.) *)
Definition upsert_story (now : Z) (st : story_dict) (d : db) : db :=
  let url_ := d_url st in
  let hn_text := d_text st in
  if negb (truthy_opt url_) && truthy_opt hn_text then
    let compressed_text := compress_content (default "" hn_text) in
    match stories d !! d_id st with
    | None =>
        with_stories
          (<[d_id st := new_story now st (Some compressed_text) Done (Some "hn_text")]>
             (stories d)) d
    | Some old =>
        (* ON CONFLICT(id) DO UPDATE SET: every right-hand side reads the
           row as it was *)
        let content_ :=
          match content old with None => Some compressed_text | Some c => Some c end in
        let content_status_ :=
          match content old with None => Done | Some _ => content_status old end in
        let content_source_ :=
          match content old with None => Some "hn_text" | Some _ => content_source old end in
        with_stories
          (<[d_id st :=
               set_updated_at now
                 (set_content_source content_source_
                    (set_content_status content_status_
                       (set_content content_
                          (set_descendants (d_descendants st)
                             (set_score (d_score st) old)))))]>
             (stories d)) d
    end
  else
    match stories d !! d_id st with
    | None =>
        with_stories (<[d_id st := new_story now st None Pending None]> (stories d)) d
    | Some old =>
        with_stories
          (<[d_id st := set_updated_at now
                          (set_descendants (d_descendants st) (set_score (d_score st) old))]>
             (stories d)) d
    end.

Definition update_content (now : Z) (story_id : Z) (content_ : string)
    (status_ : status) (source : option string) (browser_ms_ : Q) (d : db) : db :=
  let teaser_ :=
    if PyStr.truthy content_ then
      let text :=
        if PyStr.startswith COMPRESS_PREFIX content_
        then decompress_content content_ else content_ in
      Some (make_teaser text)
    else None in
  update_story story_id
    (fun s =>
       set_updated_at now
         (set_teaser teaser_
            (set_browser_ms browser_ms_
               (set_content_source source
                  (set_content_status status_ (set_content (Some content_) s))))))
    d.

(** *** Content queue *)

(** [content_status IN ('pending', 'retry') AND url IS NOT NULL
    AND content_attempts < ?] *)
Definition claimable (max_attempts : Z) (s : story) : bool :=
  match content_status s with Pending | Retry => true | _ => false end
  && match url s with Some _ => true | None => false end
  && (content_attempts s <? max_attempts).

(** [a] sorts strictly before [b] under
    [ORDER BY content_attempts ASC, time ASC]. *)
Definition queue_lt (a b : story) : bool :=
  (content_attempts a <? content_attempts b)
  || ((content_attempts a =? content_attempts b) && order_lt (time a) (time b)).

(** [ORDER BY ... LIMIT 1]: the first of the rows read that no later row
    sorts strictly before; of several equal rows the one read first. *)
Definition first_by (lt : story -> story -> bool) (rows : list story) : option story :=
  foldl (fun best s =>
           match best with
           | None => Some s
           | Some b => if lt s b then Some s else Some b
           end) None rows.

(** The order of the primary key. *)
Definition key_order : relation (Z * story) := fun a b => a.1 <= b.1.

#[global] Instance key_order_dec a b : Decision (key_order a b).
Proof. unfold key_order. apply _. Defined.

(** The rows of [stories] in the order of a table scan: by the primary
    key. *)
Definition scan (d : db) : list story :=
  (merge_sort key_order (map_to_list (stories d))).*2.

(** The rows of the claim's subquery in the order SQLite reads them,
    through the index [idx_stories_content_queue]: the pending rows, then
    the retry rows, each in the order of the primary key. SQL leaves the
    order of equal rows open; this is the order SQLite takes. *)
Definition queue_rows (max_attempts : Z) (d : db) : list story :=
  let rows := filter (fun s => claimable max_attempts s = true) (scan d) in
  filter (fun s => content_status s = Pending) rows
  ++ filter (fun s => content_status s = Retry) rows.

Definition claim_next_content_job (now : Z) (max_attempts : Z) (d : db)
    : option job * db :=
  match first_by queue_lt (queue_rows max_attempts d) with
  | Some s =>
      let s' :=
        set_updated_at now
          (set_content_attempts (content_attempts s + 1)
             (set_content_status Fetching s)) in
      (Some (mkJob (id s') (url s') (domain s') (content_attempts s')),
       with_stories (<[id s := s']> (stories d)) d)
  | None => (None, d)
  end.

Definition complete_content_job (now : Z) (story_id : Z) (content_ : option string)
    (status_ : status) (source : option string) (browser_ms_ : Q) (d : db) : db :=
  let compressed :=
    match content_ with
    | Some c => if PyStr.truthy c then Some (compress_content c) else content_
    | None => content_
    end in
  update_story story_id
    (fun s =>
       set_updated_at now
         (set_browser_ms browser_ms_
            (set_content_source source
               (set_content_status status_ (set_content compressed s)))))
    d.

Definition retry_content_job (now : Z) (story_id : Z) (d : db) : db :=
  update_story story_id
    (fun s => set_updated_at now (set_content_status Retry s)) d.

Definition cleanup_stuck_content_jobs (now : Z) (max_attempts : Z) (d : db) : Z * db :=
  let total_fixed := 0 in
  let '(skipped_count, d1) :=
    update_where
      (fun s => match url s with None => true | Some _ => false end
                && negb (terminal (content_status s)))
      (fun s => set_updated_at now (set_content_status Skipped s)) d in
  let total_fixed := total_fixed + skipped_count in
  let '(reset_count, d2) :=
    update_where
      (fun s => bool_decide (content_status s = Fetching)
                && (content_attempts s <? max_attempts))
      (fun s => set_updated_at now (set_content_status Retry s)) d1 in
  let total_fixed := total_fixed + reset_count in
  let '(failed_count, d3) :=
    update_where
      (fun s => negb (terminal (content_status s))
                && (max_attempts <=? content_attempts s))
      (fun s => set_updated_at now (set_content_status Failed s)) d2 in
  let total_fixed := total_fixed + failed_count in
  (total_fixed, d3).

(** *** Read later *)

(** [INSERT OR IGNORE INTO read_later]: binding [story_id] raises when it is
    outside the 64-bit range; an existing row is kept; a new row must
    reference a story ([REFERENCES stories(id)] under
    [PRAGMA foreign_keys = ON]; [OR IGNORE] does not cover foreign keys). *)
Definition add_read_later (now : Z) (story_id : Z) (d : db) : result db :=
  if negb (fits_int64 story_id) then Raise OverflowError
  else
    match read_later d !! story_id with
    | Some _ => Ok d
    | None =>
        match stories d !! story_id with
        | Some _ => Ok (with_read_later (<[story_id := now]> (read_later d)) d)
        | None => Raise (IntegrityError "FOREIGN KEY constraint failed")
        end
    end.

Definition remove_read_later (story_id : Z) (d : db) : db :=
  with_read_later (delete story_id (read_later d)) d.

(** *** Dismissed *)

(** [INSERT OR IGNORE INTO dismissed]: binding [story_id] raises when it is
    outside the 64-bit range; the table references nothing. *)
Definition dismiss_story (now : Z) (story_id : Z) (d : db) : result db :=
  if negb (fits_int64 story_id) then Raise OverflowError
  else
    match dismissed d !! story_id with
    | Some _ => Ok d
    | None => Ok (with_dismissed (<[story_id := now]> (dismissed d)) d)
    end.

Definition undismiss_story (story_id : Z) (d : db) : db :=
  with_dismissed (delete story_id (dismissed d)) d.

Definition clear_dismissed (d : db) : db := with_dismissed ∅ d.

(** [story_id IN (SELECT story_id FROM t)] *)
Definition has_row (t : gmap Z Z) (story_id : Z) : bool :=
  match t !! story_id with Some _ => true | None => false end.

(** A row of [t] for [story_id] with [created_at < datetime(cutoff, 'unixepoch')] *)
Definition created_before (cutoff : Z) (t : gmap Z Z) (story_id : Z) : bool :=
  match t !! story_id with Some at_ => at_ <? cutoff | None => false end.

(** [DELETE FROM t WHERE story_id IN (ids)] *)
Definition delete_ids {A} (ids : list Z) (t : gmap Z A) : gmap Z A :=
  filter (fun kv => kv.1 ∉ ids) t.

(** The story part of [cleanup_stories]: stories, their child rows, the
    dismissal markers and the URL cache. The rest of the function rolls
    [usage_log] up into [usage_summary] and reads no other table. Returns
    the two counts and the new store. *)
Definition cleanup_stories (now : Z) (dismissed_hours max_age_days content_cache_days : Z)
    (d : db) : (Z * Z) * db :=
  let dismissed_cutoff := now - dismissed_hours * 3600 in
  let age_cutoff := now - max_age_days * 24 * 3600 in
  let cache_cutoff := now - content_cache_days * 24 * 3600 in
  let dismissed_ids :=
    id <$> filter (fun s => created_before dismissed_cutoff (dismissed d) (id s) = true)
             (scan d) in
  let old_ids :=
    id <$> filter (fun s => sql_lt (time s) (Some age_cutoff)
                            && negb (has_row (read_later d) (id s))
                            && negb (has_row (dismissed d) (id s)) = true) (scan d) in
  let dismissed_count := Z.of_nat (length dismissed_ids) in
  let old_count := Z.of_nat (length old_ids) in
  let all_ids_to_delete := dismissed_ids ++ old_ids in
  let d1 :=
    match all_ids_to_delete with
    | [] => d
    | _ =>
        mkDb (delete_ids all_ids_to_delete (stories d))
          (fetched_urls d) (usage_log d) (blocked_domains d) (blocked_words d)
          (delete_ids all_ids_to_delete (read_later d))
          (delete_ids all_ids_to_delete (dismissed d))
          (delete_ids all_ids_to_delete (history d))
    end in
  let marker_cutoff := now - 60 * 24 * 3600 in
  let d2 :=
    with_dismissed
      (filter (fun kv => (kv.2 <? marker_cutoff) = false) (dismissed d1)) d1 in
  let d3 :=
    with_fetched_urls
      (filter (fun kv => (fetched_at kv.2 <? cache_cutoff) = false) (fetched_urls d2)) d2 in
  ((dismissed_count, old_count), d3).

(** *** URL cache and usage log *)

Definition get_cached_content (url_ : option string) (d : db) : option cache_row :=
  match url_ with
  | Some u => fetched_urls d !! u
  | None => None
  end.

(** [INSERT OR REPLACE INTO fetched_urls]. The worker passes the url of a
    claimed job, which is never [NULL]; a [NULL] key is outside the table
    as modelled. *)
Definition cache_content (now : Z) (url_ : option string) (content_ : option string)
    (source : option string) (browser_ms_ : Q) (d : db) : db :=
  match url_ with
  | Some u =>
      with_fetched_urls
        (<[u := mkCache content_ source browser_ms_ now]> (fetched_urls d)) d
  | None => d
  end.

Definition log_usage (now : Z) (story_id : Z) (url_ : option string)
    (browser_ms_ : Q) (source : option string) (d : db) : db :=
  with_usage_log (usage_log d ++ [mkUsage story_id url_ browser_ms_ source now]) d.

(** *** Sync checkpoint *)



(** *** Blocked domains and words *)

Definition with_blocked_domains (t : gset string) (d : db) : db :=
  mkDb (stories d) (fetched_urls d) (usage_log d) t (blocked_words d)
    (read_later d) (dismissed d) (history d).

Definition with_blocked_words (t : gset string) (d : db) : db :=
  mkDb (stories d) (fetched_urls d) (usage_log d) (blocked_domains d) t
    (read_later d) (dismissed d) (history d).

Definition add_blocked_domain (domain_ : string) (d : db) : db :=
  with_blocked_domains ({[domain_]} ∪ blocked_domains d) d.

Definition remove_blocked_domain (domain_ : string) (d : db) : db :=
  with_blocked_domains (blocked_domains d ∖ {[domain_]}) d.

Definition add_blocked_word (word : string) (d : db) : db :=
  with_blocked_words ({[PyStr.lower word]} ∪ blocked_words d) d.

Definition remove_blocked_word (word : string) (d : db) : db :=
  with_blocked_words (blocked_words d ∖ {[PyStr.lower word]}) d.

(** *** Front page tracking *)

Definition set_hit_front_page (v : Z) (s : story) : story :=
  mkStory (id s) (title s) (url s) (domain s) (by_ s) (time s) (score s)
    (descendants s) (content s) (content_status s) (content_attempts s)
    (content_source s) (browser_ms s) v (front_page_rank s) (created_at s)
    (updated_at s) (teaser s).

Definition set_front_page_rank (v : option Z) (s : story) : story :=
  mkStory (id s) (title s) (url s) (domain s) (by_ s) (time s) (score s)
    (descendants s) (content s) (content_status s) (content_attempts s)
    (content_source s) (browser_ms s) (hit_front_page s) v (created_at s)
    (updated_at s) (teaser s).

(** [hit_front_page = 0 OR front_page_rank IS NULL OR front_page_rank > ?] *)
Definition front_page_stale (rank : Z) (s : story) : bool :=
  (hit_front_page s =? 0)
  || match front_page_rank s with
     | None => true
     | Some r => rank <? r
     end.

(** [SET hit_front_page = 1, front_page_rank = CASE ... END,
    updated_at = CURRENT_TIMESTAMP] *)
Definition front_page_mark (now rank : Z) (s : story) : story :=
  set_updated_at now
    (set_front_page_rank
       (Some (match front_page_rank s with
              | None => rank
              | Some r => if rank <? r then rank else r
              end))
       (set_hit_front_page 1 s)).

(** The loop over [enumerate(top_story_ids[:30], start=1)]; [updated] adds
    up the [rowcount]s. *)
Fixpoint front_page_loop (now rank : Z) (ids : list Z) (updated : Z) (d : db) : Z * db :=
  match ids with
  | [] => (updated, d)
  | story_id :: rest =>
      match stories d !! story_id with
      | Some s =>
          if front_page_stale rank s
          then front_page_loop now (rank + 1) rest (updated + 1)
                 (update_story story_id (front_page_mark now rank) d)
          else front_page_loop now (rank + 1) rest updated d
      | None => front_page_loop now (rank + 1) rest updated d
      end
  end.

Definition update_front_page_stories (now : Z) (top_story_ids : list Z) (d : db) : Z * db :=
  match top_story_ids with
  | [] => (0, d)
  | _ => front_page_loop now 1 (take 30 top_story_ids) 0 d
  end.

(** *** Listing *)

(** The [scored] rows: a story with the flags of the four left joins. *)
Definition scored (d : db) : list listed :=
  (fun s =>
     mkListed s
       (has_row (read_later d) (id s))
       (has_row (dismissed d) (id s))
       (has_row (history d) (id s))
       (match domain s with
        | Some dm => bool_decide (dm ∈ blocked_domains d)
        | None => false
        end)) <$> scan d.

(** The keyset condition: [(time < ? OR (time = ? AND id < ?))] for newest
    first, [>] otherwise. *)
Definition after_cursor (sort : string) (cursor_time cursor_id : Z) (r : listed) : bool :=
  if String.eqb sort "newest" then
    sql_lt (time (row r)) (Some cursor_time)
    || (sql_eq (time (row r)) (Some cursor_time) && (id (row r) <? cursor_id))
  else
    sql_gt (time (row r)) (Some cursor_time)
    || (sql_eq (time (row r)) (Some cursor_time) && (cursor_id <? id (row r))).

Definition where_clause (dismissed_only include_blocked include_read_later : bool)
    (sort : string) (cursor_time cursor_id : option Z) (r : listed) : bool :=
  (if dismissed_only then is_dismissed r else negb (is_dismissed r))
  && (if negb include_blocked then negb (is_domain_blocked r) else true)
  && (if negb include_read_later then negb (is_read_later r) else true)
  && match cursor_time, cursor_id with
     | Some ct, Some ci => after_cursor sort ct ci r
     | _, _ => true
     end.

(** [a] comes no later than [b] under [ORDER BY time DESC, id DESC]
    (newest) or [ORDER BY time ASC, id ASC]. *)
Definition listing_le (sort : string) (a b : listed) : bool :=
  if String.eqb sort "newest" then
    order_lt (time (row b)) (time (row a))
    || (order_eq (time (row a)) (time (row b)) && (id (row b) <=? id (row a)))
  else
    order_lt (time (row a)) (time (row b))
    || (order_eq (time (row a)) (time (row b)) && (id (row a) <=? id (row b))).

Definition listing_order (sort : string) : relation listed :=
  fun a b => listing_le sort a b = true.

#[global] Instance listing_order_dec sort a b : Decision (listing_order sort a b).
Proof. unfold listing_order. apply _. Defined.

(** [LIMIT n]: a negative [n] is no limit. *)
Definition sql_limit_rows {A} (n : Z) (l : list A) : list A :=
  if n <? 0 then l else take (Z.to_nat n) l.

Definition select_scored (dismissed_only include_blocked include_read_later : bool)
    (sort : string) (cursor_time cursor_id : option Z) (sql_limit : Z) (d : db)
    : list listed :=
  sql_limit_rows sql_limit
    (merge_sort (listing_order sort)
       (filter
          (fun r => where_clause dismissed_only include_blocked include_read_later
                      sort cursor_time cursor_id r = true)
          (scored d))).

(** [any(bw in title_lower for bw in blocked_words)] *)
Definition blocked_title (d : db) (title_ : string) : bool :=
  let title_lower := PyStr.lower title_ in
  existsb (fun bw => PyStr.contains (PyStr.lower bw) title_lower)
    (elements (blocked_words d)).

(** [story.get("url") or f"hn:{story['id']}"] *)
Definition dedup_key (s : story) : string :=
  if truthy_opt (url s) then default "" (url s)
  else "hn:" +:+ PyStr.str_of_Z (id s).

(** The [for row in rows] loop: blocked words, deduplication, and the
    [break] once [limit] stories are collected. *)
Fixpoint filter_rows (include_blocked : bool) (limit : Z) (d : db)
    (rows : list listed) (acc : list listed * gset string)
    : list listed * gset string :=
  match rows with
  | [] => acc
  | r :: rest =>
      if negb include_blocked && blocked_title d (title (row r))
      then filter_rows include_blocked limit d rest acc
      else
        let u := dedup_key (row r) in
        if bool_decide (u ∈ acc.2)
        then filter_rows include_blocked limit d rest acc
        else
          let seen_urls := {[u]} ∪ acc.2 in
          let stories_ := acc.1 ++ [r] in
          if limit <=? Z.of_nat (length stories_) then (stories_, seen_urls)
          else filter_rows include_blocked limit d rest (stories_, seen_urls)
  end.

(** The [while len(stories) < limit and has_more_in_db] loop. [None]: the
    loop is still running when [fuel] batches have been fetched. *)
Fixpoint fetch_batches (fuel : nat)
    (dismissed_only include_blocked include_read_later : bool)
    (limit : Z) (sort : string) (d : db)
    (acc : list listed * gset string)
    (current_cursor_time current_cursor_id : option Z) (has_more_in_db : bool)
    : option (list listed * bool) :=
  if (Z.of_nat (length acc.1) <? limit) && has_more_in_db then
    match fuel with
    | O => None
    | S fuel' =>
        let sql_limit := limit * 3 in
        let rows :=
          select_scored dismissed_only include_blocked include_read_later sort
            current_cursor_time current_cursor_id sql_limit d in
        let has_more_in_db := Z.of_nat (length rows) =? sql_limit in
        match last rows with
        | None => Some (acc.1, has_more_in_db)
        | Some last_row =>
            fetch_batches fuel' dismissed_only include_blocked include_read_later
              limit sort d
              (filter_rows include_blocked limit d rows acc)
              (time (row last_row)) (Some (id (row last_row))) has_more_in_db
        end
    end
  else Some (acc.1, has_more_in_db).

(** [f"{last_story['time']}:{last_story['id']}"] *)
Definition cursor_string (r : listed) : string :=
  match time (row r) with
  | Some t => PyStr.str_of_Z t
  | None => "None"
  end +:+ ":" +:+ PyStr.str_of_Z (id (row r)).

(** [l[:n]] on a list *)
Definition slice_to {A} (n : Z) (l : list A) : list A :=
  if 0 <=? n then take (Z.to_nat n) l
  else take (length l - Z.to_nat (- n)) l.

(** What the first [fetchall] of the loop raises. The cursor is bound as
    parameters when both parts are given, and [sqlite3] raises
    [OverflowError] for one outside the 64-bit range; [LIMIT {sql_limit}] is
    written into the query, and SQLite rejects a literal above [2**63 - 1]
    when the statement runs ([IntegrityError: datatype mismatch]). The
    binding comes first. The query of a later batch has the same limit and
    the cursor of a row that was read from the table. *)
Definition first_query_error (limit : Z) (cursor_time cursor_id : option Z)
    : option exn :=
  if match cursor_time, cursor_id with
     | Some t, Some i => negb (fits_int64 t && fits_int64 i)
     | _, _ => false
     end
  then Some OverflowError
  else if 2 ^ 63 - 1 <? limit * 3 then Some (IntegrityError "datatype mismatch")
  else None.

(** [None]: the loop is still running when [fuel] batches have been
    fetched; [Some (Raise e)]: the first query raised [e] (the loop runs a
    query only when [0 < limit]); [Some (Ok p)]: the dict returned. *)
Definition get_stories (fuel : nat)
    (dismissed_only include_blocked include_read_later : bool)
    (limit : Z) (cursor_time cursor_id : option Z) (sort : string) (d : db)
    : option (result page) :=
  match (if 0 <? limit then first_query_error limit cursor_time cursor_id else None),
        fuel with
  | Some e, S _ => Some (Raise e)
  | _, _ =>
      match fetch_batches fuel dismissed_only include_blocked include_read_later
              limit sort d ([], ∅) cursor_time cursor_id true with
      | None => None
      | Some (stories_, has_more_in_db) =>
          let n := Z.of_nat (length stories_) in
          let next_cursor_ :=
            if negb (bool_decide (stories_ = []))
               && (has_more_in_db || (limit <=? n)) then
              cursor_string <$>
                (if n <=? limit then last stories_
                 else stories_ !! Z.to_nat (limit - 1))
            else None in
          let result_stories := slice_to limit stories_ in
          let has_more_ := (limit <? n) || has_more_in_db in
          Some (Ok (mkPage result_stories has_more_ next_cursor_))
      end
  end.

End Operations.
End Database.

(** ** The HTTP routes of the two per-user sets *)

Module Api.

(** The status code of a route: 200 with [{"ok": true}], or 500 when the
    handler raises. *)
Definition respond (d : db) (r : result db) : Z * db :=
  match r with
  | Ok d' => (200, d')
  | Raise _ => (500, d)
  end.

(** [POST /api/readlater/{story_id}] *)
Definition add_read_later (now : Z) (story_id : Z) (d : db) : Z * db :=
  respond d (Database.add_read_later now story_id d).

(** [POST /api/dismiss/{story_id}] *)
Definition dismiss_story (now : Z) (story_id : Z) (d : db) : Z * db :=
  respond d (Database.dismiss_story now story_id d).

End Api.

(** ** The content worker *)

(** [FetchResult.status]; every string other than the five named ones takes
    the worker's last branch, like ["failed"]. *)
Inductive fetch_status :=
| FetchDone | FetchBlocked | FetchTimeout | FetchQuotaExceeded | FetchRateLimited
| FetchFailed.

Record FetchResult := mkFetchResult {
  fr_content : option string;
  fr_status : fetch_status;
  fr_source : option string;
  fr_browser_ms : Q;
  fr_error : option string;
}.

Section Worker.
Context {C : Codec}.

(** [result.browser_ms > 0] *)
Definition positive_ms (q : Q) : bool :=
  match Qcompare 0 q with Lt => true | _ => false end.

(** One pass of the loop of [content_worker] once both global gates are
    open, on the store: the renderer's answer for a url is [fetch_content].
    The sleeps, the log lines and the two gate variables are not part of
    the store. Returns the new [idle_iterations] and store.

    The [try] block is modelled where no call of it raises, which is so for
    the text of the store model. (When a call raises, as [cache_content]
    does for a body that SQLite cannot store, [except Exception] ends the
    pass like a failed fetch: the story goes back to retry, or to failed
    with empty content once [MAX_RETRIES] attempts are used.) *)
Definition content_worker_iteration (worker_id : Z) (now : Z)
    (fetch_content : option string -> FetchResult)
    (idle_iterations : Z) (d : db) : Z * db :=
  match Database.claim_next_content_job now MAX_RETRIES d with
  | (None, d0) =>
      let idle_iterations := idle_iterations + 1 in
      if (worker_id =? 1) && (12 <=? idle_iterations)
      then (0, (Database.cleanup_stuck_content_jobs now MAX_RETRIES d0).2)
      else (idle_iterations, d0)
  | (Some j, d0) =>
      let story_id := job_id j in
      let url_ := job_url j in
      let attempts := job_content_attempts j in
      let retry_or (final : db -> db) :=
        if MAX_RETRIES <=? attempts then final d0
        else Database.retry_content_job now story_id d0 in
      (0,
       match Database.get_cached_content url_ d0 with
       | Some cached =>
           Database.complete_content_job now story_id (cache_content_ cached) Done
             (cache_source cached) (cache_browser_ms cached) d0
       | None =>
           let result := fetch_content url_ in
           match fr_status result with
           | FetchDone =>
               Database.log_usage now story_id url_ (fr_browser_ms result) (fr_source result)
                 (Database.complete_content_job now story_id (fr_content result) Done
                    (fr_source result) (fr_browser_ms result)
                    (Database.cache_content now url_ (fr_content result)
                       (fr_source result) (fr_browser_ms result) d0))
           | FetchBlocked =>
               retry_or (fun d0 =>
                 let d1 :=
                   Database.complete_content_job now story_id
                     (Some (default "" (fr_content result))) Blocked
                     (fr_source result) (fr_browser_ms result) d0 in
                 if positive_ms (fr_browser_ms result)
                 then Database.log_usage now story_id url_ (fr_browser_ms result)
                        (fr_source result) d1
                 else d1)
           | FetchTimeout =>
               retry_or (Database.complete_content_job now story_id (Some "") Failed
                           (fr_source result) 0%Q)
           | FetchQuotaExceeded => Database.retry_content_job now story_id d0
           | FetchRateLimited => Database.retry_content_job now story_id d0
           | FetchFailed =>
               retry_or (Database.complete_content_job now story_id (Some "") Failed
                           (fr_source result) 0%Q)
           end
       end)
  end.

End Worker.

(** ** The store operations as commands *)

(** The operations that write [stories] on behalf of the workers, the
    recovery pass and the ingestor, with the arguments their callers pass:
    the claim and the recovery run with [MAX_RETRIES]. *)
Inductive store_op :=
| ClaimNext
| RetryJob (story_id : Z)
| CompleteJob (story_id : Z) (content_ : option string) (status_ : status)
    (source : option string) (browser_ms_ : Q)
| CleanupStuck
| Upsert (st : story_dict).

Section Commands.
Context {C : Codec}.

Definition run_op (now : Z) (op : store_op) (d : db) : db :=
  match op with
  | ClaimNext => (Database.claim_next_content_job now MAX_RETRIES d).2
  | RetryJob story_id => Database.retry_content_job now story_id d
  | CompleteJob story_id content_ status_ source browser_ms_ =>
      Database.complete_content_job now story_id content_ status_ source browser_ms_ d
  | CleanupStuck => (Database.cleanup_stuck_content_jobs now MAX_RETRIES d).2
  | Upsert st => Database.upsert_story now st d
  end.

(** A run: each operation with the clock reading it sees. *)
Fixpoint run_ops (ops : list (Z * store_op)) (d : db) : db :=
  match ops with
  | [] => d
  | (now, op) :: rest => run_ops rest (run_op now op d)
  end.

End Commands.

(** ** Sample stores *)

Module Sample.

(** A fresh row for a link story. *)
Definition link (i : Z) (u : string) (t : Z) (st : status) (attempts : Z) : story :=
  mkStory i "A story" (Some u) (Some "example.com") (Some "pg") (Some t) 1 0
    None st attempts None 0%Q 0 None t t None.

(** Three stories waiting in the queue: two fresh, one retried once. *)
Definition queue_db : db :=
  mkDb (list_to_map
          [ (1, link 1 "https://example.com/a" 100 Pending 0);
            (2, link 2 "https://example.com/b" 90 Retry 1);
            (3, link 3 "https://example.com/c" 80 Pending 0) ])
    ∅ [] ∅ ∅ ∅ ∅ ∅.



(** The same post as the ingestor sees it later, now with its text. *)
Definition self_post_dict : story_dict :=
  mkDict 7 "Ask HN: a question" None (Some "The body of the question") None
    (Some "dang") (Some 500) 5 2.


(** The queue with the url of story 3 already in the URL cache, fetched for
    another story at a cost of 1500 ms. *)
Definition cached_db : db :=
  with_fetched_urls
    {[ "https://example.com/c" :=
         mkCache (Some "The article, as rendered before") (Some "cloudflare")
           (1500 # 1)%Q 50 ]}
    queue_db.

(** A renderer that is down: every fetch fails. *)
Definition renderer_down (_ : option string) : FetchResult :=
  mkFetchResult None FetchFailed (Some "cloudflare") 0%Q (Some "HTTP 503").

(** The queue with story 3 dismissed at time 1000. *)
Definition dismissed_db : db := with_dismissed {[ 3 := 1000 ]} queue_db.

(** A renderer that answers every url with the same article. *)
Definition renderer_up (_ : option string) : FetchResult :=
  mkFetchResult (Some "Fresh article text") FetchDone (Some "cloudflare")
    (1200 # 1)%Q None.

(** A story with its own title and domain. *)
Definition titled (i : Z) (ti u dm : string) (t : Z) : story :=
  mkStory i ti (Some u) (Some dm) (Some "pg") (Some t) 1 0
    None Pending 0 None 0%Q 0 None t t None.

(** Six stories for the listing: 11 and 12 share a url, 13 is dismissed, 14
    is on a blocked domain, 15 has a blocked word in its title, 16 is on read
    later. *)
Definition listing_db : db :=
  mkDb (list_to_map
          [ (11, titled 11 "Rust 2.0 released" "https://a.example/rust" "a.example" 160);
            (12, titled 12 "Rust 2.0 is out" "https://a.example/rust" "a.example" 150);
            (13, titled 13 "A dismissed story" "https://b.example/x" "b.example" 140);
            (14, titled 14 "From a blocked site" "https://spam.example/y" "spam.example" 130);
            (15, titled 15 "Crypto BROS again" "https://c.example/z" "c.example" 120);
            (16, titled 16 "For the weekend" "https://d.example/w" "d.example" 110) ])
    ∅ [] {[ "spam.example" ]} {[ "crypto" ]} {[ 16 := 170 ]} {[ 13 := 165 ]} ∅.

End Sample.

(** ** The vocabulary of the properties *)

(** The pattern [p] occurs in [s] under [re.IGNORECASE]: some substring of
    [s] matches it code point by code point. *)
Definition occurs_ci (p : string) (s : text) : Prop :=
  exists pre mid post,
    s = pre ++ mid ++ post
    /\ Forall2 (fun a c => Regex.ignorecase_eq a c = true) (Text.of_string p) mid.

(** Some blocking pattern occurs in [s] under [re.IGNORECASE]. *)
Definition pattern_found (s : text) : Prop :=
  exists p, In p BLOCKING_PATTERNS /\ occurs_ci p s.

(** The two texts of the failing input of the classification: 62 and 262
    code points, both starting with [Red], U+0130, [recting], padded with
    [x]. *)
Definition short_redirect : text :=
  Text.of_string "Red" ++ [304%N] ++ Text.of_string "recting" ++ replicate 51 120%N.

Definition long_redirect : text := short_redirect ++ replicate 200 120%N.

(** The [stories] table is keyed by its [id] column. *)
Definition keyed_by_id (d : db) : Prop :=
  map_Forall (fun k s => id s = k) (stories d).

(** Every table but [stories] is the same in [d] and [d']. *)
Definition same_side_tables (d d' : db) : Prop :=
  fetched_urls d' = fetched_urls d /\ usage_log d' = usage_log d
  /\ blocked_domains d' = blocked_domains d /\ blocked_words d' = blocked_words d
  /\ read_later d' = read_later d /\ dismissed d' = dismissed d
  /\ history d' = history d.

(** [ORDER BY time ASC] as a relation: a missing time comes before every
    time. *)
Definition time_le (a b : option Z) : Prop :=
  match a, b with
  | None, _ => True
  | Some _, None => False
  | Some x, Some y => x <= y
  end.

(** [a] is at or before [b] in the content queue: fewer attempts first,
    then older first. *)
Definition queue_le (a b : story) : Prop :=
  content_attempts a < content_attempts b
  \/ (content_attempts a = content_attempts b /\ time_le (time a) (time b)).

(** A story the claim may take: a row with status pending or retry, a url,
    and fewer than [max_attempts] attempts. *)
Definition eligible (max_attempts : Z) (d : db) (s : story) : Prop :=
  (exists k, stories d !! k = Some s)
  /\ (content_status s = Pending \/ content_status s = Retry)
  /\ url s <> None
  /\ content_attempts s < max_attempts.

(** The row a claim leaves behind. *)
Definition claimed (now : Z) (s : story) : story :=
  set_updated_at now
    (set_content_attempts (content_attempts s + 1) (set_content_status Fetching s)).

(** No story has more than [MAX_RETRIES] attempts. *)
Definition attempts_bounded (d : db) : Prop :=
  map_Forall (fun _ s => content_attempts s <= MAX_RETRIES) (stories d).

(** The dict is a self post: [not url and hn_text]. *)
Definition self_text (st : story_dict) : bool :=
  negb (Database.truthy_opt (d_url st)) && Database.truthy_opt (d_text st).


(** Every [read_later] row references a story: what
    [REFERENCES stories(id)] maintains. *)
Definition read_later_references_stories (d : db) : Prop :=
  map_Forall (fun k _ => is_Some (stories d !! k)) (read_later d).

(** The rows the query selects for a cursor, before [ORDER BY] and [LIMIT]. *)
Definition candidates (dismissed_only include_blocked include_read_later : bool)
    (sort : string) (d : db) (cursor_time cursor_id : option Z) : list listed :=
  filter (fun r => Database.where_clause dismissed_only include_blocked
                     include_read_later sort cursor_time cursor_id r = true)
    (Database.scored d).

(** What the three statements of [cleanup_stuck_content_jobs] do to one
    row, in their order. *)
Definition stuck_fix (now max_attempts : Z) (s : story) : story :=
  let s1 :=
    if match url s with None => true | Some _ => false end
       && negb (terminal (content_status s))
    then set_updated_at now (set_content_status Skipped s) else s in
  let s2 :=
    if bool_decide (content_status s1 = Fetching)
       && (content_attempts s1 <? max_attempts)
    then set_updated_at now (set_content_status Retry s1) else s1 in
  if negb (terminal (content_status s2)) && (max_attempts <=? content_attempts s2)
  then set_updated_at now (set_content_status Failed s2) else s2.


(** Every story is finished or can be claimed. *)
Definition none_stuck (max_attempts : Z) (d : db) : Prop :=
  map_Forall (fun _ s => terminal (content_status s) = true
                         \/ Database.claimable max_attempts s = true)
    (stories d).

(** [p] is a substring of [s]. *)
Definition substring_of (p s : string) : Prop :=
  exists pre post, s = pre +:+ p +:+ post.

(** A row the listing may show for the given switches: a story of the
    store, dismissed exactly when only dismissed stories are asked for, not
    on read later unless those are included, and, unless blocked stories are
    included, from no blocked domain and with no blocked word in its
    lower-cased title. *)
Definition listable (dismissed_only include_blocked include_read_later : bool)
    (d : db) (r : listed) : Prop :=
  stories d !! id (row r) = Some (row r)
  /\ (if dismissed_only then is_Some (dismissed d !! id (row r))
      else dismissed d !! id (row r) = None)
  /\ (include_read_later = false -> read_later d !! id (row r) = None)
  /\ (include_blocked = false ->
      (forall dm, domain (row r) = Some dm -> dm ∉ blocked_domains d)
      /\ forall bw, bw ∈ blocked_words d ->
           ~ substring_of (PyStr.lower bw) (PyStr.lower (title (row r)))).

(** What the loops of [get_stories] keep about the stories collected so far
    and the urls seen. *)
Definition collected (dismissed_only include_blocked include_read_later : bool)
    (d : db) (acc : list listed * gset string) : Prop :=
  NoDup ((fun r => Database.dedup_key (row r)) <$> acc.1)
  /\ (forall r, r ∈ acc.1 -> Database.dedup_key (row r) ∈ acc.2)
  /\ Forall (listable dismissed_only include_blocked include_read_later d) acc.1.

(** The front-page columns of [s'] are no worse than those of [s]: a set
    flag stays set, a rank stays or gets smaller, and every column but
    [hit_front_page], [front_page_rank] and [updated_at] is the same. *)
Definition front_page_no_worse (s s' : story) : Prop :=
  (hit_front_page s <> 0 -> hit_front_page s' <> 0)
  /\ (forall r, front_page_rank s = Some r ->
        exists r', front_page_rank s' = Some r' /\ r' <= r)
  /\ set_updated_at 0 (Database.set_front_page_rank None
                         (Database.set_hit_front_page 0 s'))
     = set_updated_at 0 (Database.set_front_page_rank None
                           (Database.set_hit_front_page 0 s)).


(** A story the cleanup has no reason to delete: its dismissal, if any, is
    not older than [dismissed_hours]; and it is on read later, or dismissed,
    or not older than [max_age_days] (a story without a time is never
    older). *)
Definition spared (now dismissed_hours max_age_days : Z) (d : db) (s : story) : Prop :=
  (forall at_, dismissed d !! id s = Some at_ -> now - dismissed_hours * 3600 <= at_)
  /\ (is_Some (read_later d !! id s) \/ is_Some (dismissed d !! id s)
      \/ forall t, time s = Some t -> now - max_age_days * 24 * 3600 <= t).

(** * Properties *)

(** A decidable fact about a sample store, settled by evaluation. *)
Ltac by_evaluation :=
  apply (bool_decide_unpack _); vm_compute; exact I.

(** ** Strings *)

Lemma startswith_append (p s : string) : PyStr.startswith p (p +:+ s) = true.
Proof.
  induction p as [|a p IH]; simpl; [reflexivity|].
  now rewrite Ascii.eqb_refl.
Qed.

Lemma drop_len_append (p s : string) : PyStr.drop (PyStr.len p) (p +:+ s) = s.
Proof. induction p as [|a p IH]; simpl; auto. Qed.

Lemma lower_char_idem (c : ascii) :
  PyStr.lower_char (PyStr.lower_char c) = PyStr.lower_char c.
Proof. destruct c as [[] [] [] [] [] [] [] []]; vm_compute; reflexivity. Qed.

Lemma lower_append (s t : string) :
  PyStr.lower (s +:+ t) = PyStr.lower s +:+ PyStr.lower t.
Proof. induction s as [|a s IH]; simpl; [reflexivity|]. now rewrite IH. Qed.

Lemma len_lower (s : string) : PyStr.len (PyStr.lower s) = PyStr.len s.
Proof. unfold PyStr.len. induction s as [|a s IH]; simpl; congruence. Qed.

(** ** Compression *)

Section CompressionFacts.
Context {C : Codec}.

Lemma decompress_plain (x : string) :
  PyStr.startswith COMPRESS_PREFIX x = false -> decompress_content x = x.
Proof.
  intros Hx. unfold decompress_content.
  destruct (negb (PyStr.truthy x)); [reflexivity|].
  now rewrite Hx.
Qed.

Lemma decompress_compress {L : CodecLaws C} (x : string) :
  x <> "" -> decompress_content (compress_content x) = x.
Proof.
  intros Hx. destruct x as [|a x]; [congruence|].
  unfold compress_content, decompress_content.
  cbn [PyStr.truthy negb].
  rewrite startswith_append. cbn [negb].
  rewrite drop_len_append, b64decode_encode, zlib_decompress_compress.
  now rewrite utf8_decode_encode.
Qed.

End CompressionFacts.

(** *** On any text *)

Lemma to_string_of_string (s : string) : Text.to_string (Text.of_string s) = Some s.
Proof.
  unfold Text.to_string, Text.of_string.
  assert (Hlow : forallb (fun c => c <? 256)%N
                   ((fun a => N_of_ascii a) <$> list_ascii_of_string s) = true).
  { apply forallb_forall. intros c (a & -> & _)%list_elem_of_In%list_elem_of_fmap.
    apply N.ltb_lt, N_ascii_bounded. }
  rewrite Hlow. f_equal. clear Hlow. rewrite <- list_fmap_compose.
  rewrite <- (string_of_list_ascii_of_string s) at 2. f_equal.
  induction (list_ascii_of_string s) as [|a l IH]; [reflexivity|].
  cbn. now rewrite ascii_N_embedding, IH.
Qed.

Lemma sample_byte_to_N (n : N) : (n < 256)%N -> Byte.to_N (sample_byte n) = n.
Proof.
  intros Hn. unfold sample_byte. destruct (Byte.of_N n) as [b|] eqn:Hb.
  - now apply Byte.to_of_N.
  - apply Byte.of_N_None_iff in Hb. lia.
Qed.

Lemma from_three_bytes_inverse (s : text) :
  Text.encodable s = true -> from_three_bytes (s ≫= three_bytes) = s.
Proof.
  induction s as [|c s IH]; [reflexivity|].
  cbn [Text.encodable forallb]. intros [[_ Hc%N.leb_le]%andb_true_iff Hs]%andb_true_iff.
  change ((c :: s) ≫= three_bytes) with (three_bytes c ++ (s ≫= three_bytes)).
  unfold three_bytes at 1. cbn [app from_three_bytes]. rewrite (IH Hs). f_equal.
  assert (H1 : (c / 65536 < 256)%N) by (apply N.Div0.div_lt_upper_bound; lia).
  assert (H2 : ((c / 256) mod 256 < 256)%N) by (apply N.mod_lt; lia).
  assert (H3 : (c mod 256 < 256)%N) by (apply N.mod_lt; lia).
  rewrite !sample_byte_to_N by assumption.
  pose proof (N.div_mod c 256 ltac:(lia)) as E1.
  pose proof (N.div_mod (c / 256) 256 ltac:(lia)) as E2.
  replace (c / 65536)%N with (c / 256 / 256)%N
    by (rewrite N.Div0.div_div; reflexivity).
  lia.
Qed.

Lemma sample_utf8_laws : Utf8Laws sample_utf8.
Proof.
  split.
  - intros s. cbn. destruct (Text.encodable s); split; congruence.
  - intros s b. cbn. destruct (Text.encodable s) eqn:Hs; [|discriminate].
    intros [= <-]. f_equal. now apply from_three_bytes_inverse.
Qed.

Section TextCompressionFacts.
Context {C : Codec} {T : Utf8}.

Lemma text_decompress_plain (x : text) :
  Text.startswith (Text.of_string COMPRESS_PREFIX) x = false ->
  Text.decompress_content x = x.
Proof.
  intros Hx. unfold Text.decompress_content. destruct x; [reflexivity|].
  now rewrite Hx.
Qed.

Lemma text_compress_raises (x : text) :
  Utf8Laws T -> x <> [] -> Text.encodable x = false ->
  Text.compress_content x = Raise UnicodeEncodeError.
Proof.
  intros LT Hx Henc. unfold Text.compress_content. destruct x; [congruence|].
  now rewrite (proj2 (text_encode_None _) Henc).
Qed.

Lemma text_decompress_compress (x : text) :
  CodecLaws C -> Utf8Laws T -> x <> [] -> Text.encodable x = true ->
  exists c, Text.compress_content x = Ok c /\ Text.decompress_content c = x.
Proof.
  intros LC LT Hx Henc. unfold Text.compress_content.
  destruct x as [|a x]; [congruence|].
  destruct (text_encode (a :: x)) as [raw|] eqn:Hraw.
  2:{ apply text_encode_None in Hraw. congruence. }
  eexists. split; [reflexivity|].
  unfold Text.decompress_content.
  change (Text.of_string COMPRESS_PREFIX) with [122%N; 58%N].
  cbn [app]. unfold Text.startswith. cbn [length take]. cbn [app].
  rewrite bool_decide_eq_true_2 by reflexivity. cbn [negb drop].
  rewrite drop_0, to_string_of_string. cbn [mbind option_bind].
  rewrite b64decode_encode, zlib_decompress_compress.
  now rewrite (text_decode_encode _ _ Hraw).
Qed.

End TextCompressionFacts.

(** *** The store model's codec is the restriction to Latin-1 *)

Lemma of_string_app (s t : string) :
  Text.of_string (s +:+ t) = Text.of_string s ++ Text.of_string t.
Proof.
  unfold Text.of_string. induction s as [|a s IH]; [reflexivity|].
  cbn. now rewrite <- IH.
Qed.

Lemma of_string_encodable (s : string) : Text.encodable (Text.of_string s) = true.
Proof.
  unfold Text.encodable, Text.of_string. apply forallb_forall.
  intros c (a & -> & _)%list_elem_of_In%list_elem_of_fmap.
  pose proof (N_ascii_bounded a) as Ha. unfold Text.surrogate.
  apply andb_true_iff. split; [|apply N.leb_le; lia].
  apply negb_true_iff, andb_false_iff. left. apply N.leb_gt. lia.
Qed.

(** On the strings of the store model [compress_content] never raises, and
    the function of the store model is [compress_content] on their code
    points. *)
Lemma compress_content_latin1 (C : Codec) (T : Utf8) (s : string) :
  Utf8Laws T ->
  @Text.compress_content C T (Text.of_string s)
  = Ok (Text.of_string (@compress_content (latin1_codec C T) s)).
Proof.
  intros LT. unfold Text.compress_content, compress_content.
  destruct s as [|a s]; [reflexivity|]. set (x := String a s).
  change (Text.of_string x) with (N_of_ascii a :: Text.of_string s) at 1.
  cbn [PyStr.truthy negb]. cbv zeta. cbn [utf8_encode latin1_codec].
  destruct (text_encode (Text.of_string x)) as [raw|] eqn:Hraw.
  - cbn [default]. unfold Datatypes.id.
    change (negb (PyStr.truthy x)) with false. cbv iota.
    now rewrite of_string_app.
  - apply text_encode_None in Hraw. now rewrite of_string_encodable in Hraw.
Qed.

(** C8 (the original claim at a failing input). The one-character string
    [\ud800], a lone surrogate, is not empty, yet [compress_content] raises
    [UnicodeEncodeError] for it: there is no compressed form to decompress. *)
Lemma compress_content_raises_on_surrogate :
  [55296%N] <> ([] : text)
  /\ Text.encodable [55296%N] = false
  /\ @Text.compress_content sample_codec sample_utf8 [55296%N]
     = Raise UnicodeEncodeError.
Proof. repeat split. discriminate. Qed.

(** C8 (amended). Compression round trip, on any text: a non-empty text
    that UTF-8 can encode (no surrogate) compresses, and decompressing the
    result gives it back; for a non-empty text with a surrogate
    [compress_content] raises [UnicodeEncodeError]; and a text without the
    [z:] prefix decompresses to itself. The first part rests on the
    round-trip contracts of the zlib, base64 and UTF-8 codecs. *)
Theorem compression_round_trip (C : Codec) (LC : CodecLaws C) (T : Utf8)
    (LT : Utf8Laws T) (x : text) :
  (x <> [] -> Text.encodable x = true ->
   exists c, Text.compress_content x = Ok c /\ Text.decompress_content c = x)
  /\ (x <> [] -> Text.encodable x = false ->
      Text.compress_content x = Raise UnicodeEncodeError)
  /\ (Text.startswith (Text.of_string COMPRESS_PREFIX) x = false ->
      Text.decompress_content x = x).
Proof.
  split; [|split].
  - now apply text_decompress_compress.
  - now apply text_compress_raises.
  - apply text_decompress_plain.
Qed.

Lemma compression_round_trip_example :
  (Text.of_string "Show HN" <> [] /\ Text.encodable (Text.of_string "Show HN") = true
   /\ Text.startswith (Text.of_string COMPRESS_PREFIX) (Text.of_string "plain text")
      = false)
  /\ (exists c,
        @Text.compress_content sample_codec sample_utf8 (Text.of_string "Show HN") = Ok c
        /\ @Text.decompress_content sample_codec sample_utf8 c = Text.of_string "Show HN")
  /\ @Text.decompress_content sample_codec sample_utf8 (Text.of_string "plain text")
     = Text.of_string "plain text".
Proof.
  split; [split; [discriminate|split; reflexivity]|].
  destruct (compression_round_trip sample_codec sample_codec_laws sample_utf8
              sample_utf8_laws (Text.of_string "Show HN")) as (Hround & _ & _).
  destruct (compression_round_trip sample_codec sample_codec_laws sample_utf8
              sample_utf8_laws (Text.of_string "plain text")) as (_ & _ & Hplain).
  split; [apply Hround; [discriminate|reflexivity]|apply Hplain; reflexivity].
Defined.

(** ** Blocking detection *)

Lemma match_literal_spec (p s : text) :
  Regex.match_literal p s = true
  <-> exists mid post,
        s = mid ++ post /\ Forall2 (fun a c => Regex.ignorecase_eq a c = true) p mid.
Proof.
  revert s. induction p as [|a p IH]; intros s; cbn [Regex.match_literal].
  - split; [intros _; exists [], s; split; [reflexivity|constructor]|auto].
  - destruct s as [|c s].
    + split; [discriminate|].
      intros (mid & post & Hs & Hm). inversion Hm; subst. discriminate.
    + destruct (Regex.ignorecase_eq a c) eqn:Hac.
      * rewrite IH. split.
        -- intros (mid & post & -> & Hm). exists (c :: mid), post.
           split; [reflexivity|now constructor].
        -- intros (mid & post & Hs & Hm). inversion Hm; subst.
           injection Hs as -> ->. eauto.
      * split; [discriminate|].
        intros (mid & post & Hs & Hm). inversion Hm; subst.
        injection Hs as -> ->. congruence.
Qed.

Lemma search_spec (alts : list text) (s : text) :
  Regex.search alts s = true
  <-> exists p, In p alts
        /\ exists pre mid post,
             s = pre ++ mid ++ post
             /\ Forall2 (fun a c => Regex.ignorecase_eq a c = true) p mid.
Proof.
  induction s as [|b s IH].
  - cbn [Regex.search]. rewrite orb_false_r, existsb_exists. split.
    + intros (p & Hin & Hm). exists p. split; [assumption|].
      apply match_literal_spec in Hm as (mid & post & Hs & Hl).
      exists [], mid, post. auto.
    + intros (p & Hin & pre & mid & post & Hs & Hl). exists p. split; [assumption|].
      apply match_literal_spec. destruct pre; [|discriminate].
      exists mid, post. split; assumption.
  - cbn [Regex.search]. rewrite orb_true_iff, IH, existsb_exists. split.
    + intros [(p & Hin & Hm)|(p & Hin & pre & mid & post & Hs & Hl)].
      * exists p. split; [assumption|].
        apply match_literal_spec in Hm as (mid & post & Hs & Hl).
        exists [], mid, post. auto.
      * exists p. split; [assumption|].
        exists (b :: pre), mid, post. cbn [app]. now rewrite Hs.
    + intros (p & Hin & pre & mid & post & Hs & Hl). destruct pre as [|c pre].
      * left. exists p. split; [assumption|]. apply match_literal_spec.
        exists mid, post. split; assumption.
      * right. cbn [app] in Hs. injection Hs as -> ->. exists p. split; [assumption|].
        exists pre, mid, post. auto.
Qed.

Lemma blocking_regex_spec (s : text) : BLOCKING_REGEX s = true <-> pattern_found s.
Proof.
  unfold BLOCKING_REGEX, pattern_found, occurs_ci. rewrite search_spec. split.
  - intros (p & Hin & Hocc).
    apply list_elem_of_In, list_elem_of_fmap in Hin as (q & -> & Hq).
    exists q. split; [now apply list_elem_of_In|exact Hocc].
  - intros (q & Hq & Hocc). exists (Text.of_string q). split; [|exact Hocc].
    apply list_elem_of_In, list_elem_of_fmap. exists q.
    split; [reflexivity|now apply list_elem_of_In].
Qed.

Lemma redirect_texts :
  length short_redirect = 62%nat /\ length long_redirect = 262%nat
  /\ take 2000 long_redirect = long_redirect
  /\ BLOCKING_REGEX short_redirect = true
  /\ BLOCKING_REGEX long_redirect = true
  /\ BLOCKING_REGEX (long_redirect ≫= lower_point) = false.
Proof. repeat split; vm_compute; reflexivity. Qed.

Lemma redirect_blocking (U : CaseMapping) :
  CaseMappingLaws U ->
  detect_blocking short_redirect = true /\ detect_blocking long_redirect = false.
Proof.
  intros LU. destruct redirect_texts as (_ & _ & Htake & Hshort & _ & Hlong).
  split.
  - unfold detect_blocking. change short_redirect with (82%N :: tail short_redirect) at 1.
    change (length short_redirect <? MIN_CONTENT_LENGTH)%nat with true.
    cbn match. now rewrite Hshort.
  - unfold detect_blocking. change long_redirect with (82%N :: tail long_redirect) at 1.
    change (length long_redirect <? MIN_CONTENT_LENGTH)%nat with false.
    cbn match zeta. rewrite Htake, str_lower_ascii_0130, Hlong; [reflexivity|].
    apply (bool_decide_unpack _). vm_compute. exact I.
Qed.

(** No reading of "occurs case-insensitively" saves the original claim: a
    pattern that occurs in a text occurs in every text that starts with it,
    yet the short text is blocked and the long one, which starts with it,
    is not. *)
Lemma no_reading_of_case_insensitive (U : CaseMapping) (P : text -> Prop) :
  CaseMappingLaws U ->
  (forall s t, P s -> P (s ++ t)) ->
  ~ (forall c,
       detect_blocking c = true
       <-> ((length c < 200)%nat /\ P c)
           \/ ((200 <= length c)%nat /\ P (take 2000 c) /\ (length c <= 3000)%nat)).
Proof.
  intros LU Hmono Hclaim.
  destruct (redirect_blocking U LU) as [Hshort Hlong].
  destruct redirect_texts as (Hl1 & Hl2 & Htake & _).
  apply Hclaim in Hshort as [[_ HP]|[Hlen _]]; [|lia].
  assert (Hblocked : detect_blocking long_redirect = true).
  { apply Hclaim. right. rewrite Htake, Hl2. split; [lia|]. split; [|lia].
    apply Hmono, HP. }
  congruence.
Qed.

Lemma sample_case_mapping_laws : CaseMappingLaws sample_case_mapping.
Proof. split. reflexivity. Qed.

(** C9 (the original claim at a failing input). [short_redirect] has 62
    code points and the pattern [redirecting] occurs in it under
    [re.IGNORECASE], which lets [i] match U+0130: it is blocked.
    [long_redirect] is the same text followed by 200 more [x]: 262 code
    points, all within the first 2000, the same occurrence, at most 3000;
    the claim says blocked, but the code lower-cases the chunk first, U+0130
    becomes [i] and U+0307, and the pattern no longer matches. *)
Lemma long_redirect_is_not_blocked :
  (length short_redirect = 62%nat /\ BLOCKING_REGEX short_redirect = true
   /\ @detect_blocking sample_case_mapping short_redirect = true)
  /\ (length long_redirect = 262%nat /\ take 2000 long_redirect = long_redirect
      /\ BLOCKING_REGEX long_redirect = true
      /\ @detect_blocking sample_case_mapping long_redirect = false).
Proof. repeat split; vm_compute; reflexivity. Qed.

(** C9 (amended). Blocking classification: [detect_blocking c] is true
    exactly when either [c] is shorter than 200 code points and a blocking
    pattern occurs in [c] under [re.IGNORECASE], or [c] has at least 200 and
    at most 3000 code points and a pattern occurs, under [re.IGNORECASE], in
    the lower-casing by [str.lower()] of its first 2000 code points. *)
Theorem detect_blocking_classification (U : CaseMapping) (c : text) :
  detect_blocking c = true
  <-> ((length c < 200)%nat /\ pattern_found c)
      \/ ((200 <= length c)%nat /\ pattern_found (str_lower (take 2000 c))
          /\ (length c <= 3000)%nat).
Proof.
  unfold detect_blocking, MIN_CONTENT_LENGTH.
  rewrite <- !blocking_regex_spec.
  destruct c as [|a c].
  - split; [discriminate|]. intros [[_ H]|[H _]]; [|cbn [length] in H; lia].
    vm_compute in H. discriminate.
  - set (s := a :: c). cbv zeta.
    destruct (Nat.ltb_spec (length s) 200) as [Hlt|Hge].
    + destruct (BLOCKING_REGEX s); split; auto; try discriminate.
      intros [[_ H]|[H _]]; [discriminate|lia].
    + destruct (BLOCKING_REGEX (str_lower (take 2000 s))).
      * destruct (Nat.ltb_spec 3000 (length s)) as [Hbig|Hsmall].
        -- split; [discriminate|]. intros [[H _]|(_ & _ & H)]; lia.
        -- split; auto.
      * split; [discriminate|]. intros [[H _]|(_ & H & _)]; [lia|discriminate].
Qed.

(** ** The store: shared facts *)

Lemma same_side_tables_with_stories (t : gmap Z story) (d : db) :
  same_side_tables d (with_stories t d).
Proof. repeat split. Qed.

Lemma elem_of_scan (d : db) (s : story) :
  s ∈ Database.scan d <-> exists k, stories d !! k = Some s.
Proof.
  unfold Database.scan. rewrite list_elem_of_fmap. split.
  - intros ([k x] & -> & Hin). rewrite merge_sort_Permutation in Hin.
    apply elem_of_map_to_list in Hin. eauto.
  - intros (k & Hk). exists (k, s). split; [reflexivity|].
    rewrite merge_sort_Permutation. now apply elem_of_map_to_list.
Qed.

Lemma length_scan (d : db) : length (Database.scan d) = size (stories d).
Proof.
  unfold Database.scan.
  now rewrite length_fmap, merge_sort_Permutation, length_map_to_list.
Qed.

Lemma stories_with_stories (t : gmap Z story) (d : db) : stories (with_stories t d) = t.
Proof. reflexivity. Qed.

(** *** [ORDER BY ... LIMIT 1] *)

Section FirstBy.
Variable lt : story -> story -> bool.
Hypothesis lt_irrefl : forall a, lt a a = false.
Hypothesis lt_asym : forall a b, lt a b = true -> lt b a = false.
Hypothesis lt_chain :
  forall a b c, lt b a = false -> lt c b = false -> lt c a = false.

Lemma first_by_fold (rows : list story) (best : option story) (r : story) :
  foldl (fun best s =>
           match best with
           | None => Some s
           | Some b => if lt s b then Some s else Some b
           end) best rows = Some r ->
  (best = Some r \/ r ∈ rows)
  /\ (forall x, x ∈ rows -> lt x r = false)
  /\ (forall b, best = Some b -> lt b r = false).
Proof.
  revert best. induction rows as [|s rows IH]; intros best Hr; simpl in Hr.
  - subst best. split; [now left|]. split.
    + intros x Hx. now apply elem_of_nil in Hx.
    + intros b [= ->]. apply lt_irrefl.
  - apply IH in Hr as (Hin & Hmin & Hbest).
    destruct best as [b|].
    + destruct (lt s b) eqn:Hsb.
      * specialize (Hbest s eq_refl). split; [|split].
        -- right. destruct Hin as [[= <-]|Hin]; [left|now right].
        -- intros x Hx. apply elem_of_cons in Hx as [->|Hx]; auto.
        -- intros b' [= <-]. apply (lt_chain r s b); auto.
      * specialize (Hbest b eq_refl). split; [|split].
        -- destruct Hin as [Hin|Hin]; [now left|right; now right].
        -- intros x Hx. apply elem_of_cons in Hx as [->|Hx]; auto.
           apply (lt_chain r b s); auto.
        -- intros b' [= <-]. exact Hbest.
    + specialize (Hbest s eq_refl). split; [|split].
      * right. destruct Hin as [[= <-]|Hin]; [left|now right].
      * intros x Hx. apply elem_of_cons in Hx as [->|Hx]; auto.
      * intros b [=].
Qed.

Lemma first_by_Some (rows : list story) (r : story) :
  Database.first_by lt rows = Some r ->
  r ∈ rows /\ forall x, x ∈ rows -> lt x r = false.
Proof.
  intros H. apply first_by_fold in H as ([[=]|Hin] & Hmin & _). auto.
Qed.

Lemma first_by_None (rows : list story) :
  Database.first_by lt rows = None -> rows = [].
Proof.
  destruct rows as [|s rows]; [reflexivity|].
  unfold Database.first_by. simpl. intros H. exfalso.
  assert (G : forall l b, foldl (fun best s =>
           match best with
           | None => Some s
           | Some b => if lt s b then Some s else Some b
           end) (Some b) l <> None).
  { induction l as [|x l IHl]; intros b; simpl; [discriminate|].
    destruct (lt x b); apply IHl. }
  exact (G rows s H).
Qed.
End FirstBy.

Lemma queue_lt_false (a b : story) : Database.queue_lt a b = false <-> queue_le b a.
Proof.
  unfold Database.queue_lt, queue_le, order_lt, time_le.
  destruct (time a), (time b); rewrite orb_false_iff, andb_false_iff; lia.
Qed.

Lemma queue_lt_true (a b : story) : Database.queue_lt a b = true <-> ~ queue_le b a.
Proof. rewrite <- queue_lt_false. destruct (Database.queue_lt a b); split; congruence. Qed.

Lemma queue_le_refl (a : story) : queue_le a a.
Proof. unfold queue_le, time_le. destruct (time a); lia. Qed.

Lemma queue_le_trans (a b c : story) : queue_le a b -> queue_le b c -> queue_le a c.
Proof. unfold queue_le, time_le. destruct (time a), (time b), (time c); lia. Qed.

Lemma queue_le_total (a b : story) : queue_le a b \/ queue_le b a.
Proof. unfold queue_le, time_le. destruct (time a), (time b); lia. Qed.

Lemma first_by_queue (rows : list story) (r : story) :
  Database.first_by Database.queue_lt rows = Some r ->
  r ∈ rows /\ forall x, x ∈ rows -> queue_le r x.
Proof.
  intros H. apply first_by_Some in H as [Hin Hmin].
  - split; [assumption|]. intros x Hx. apply queue_lt_false. auto.
  - intros a. apply queue_lt_false, queue_le_refl.
  - intros a b Hab. apply queue_lt_false.
    apply queue_lt_true in Hab. destruct (queue_le_total a b); tauto.
  - intros a b c Hab Hbc. apply queue_lt_false.
    apply queue_lt_false in Hab, Hbc. eapply queue_le_trans; eassumption.
Qed.

(** ** The content queue *)

Lemma claimable_spec (max_attempts : Z) (s : story) :
  Database.claimable max_attempts s = true
  <-> (content_status s = Pending \/ content_status s = Retry)
      /\ url s <> None /\ content_attempts s < max_attempts.
Proof.
  unfold Database.claimable. rewrite !andb_true_iff, Z.ltb_lt.
  destruct (content_status s), (url s); intuition (try congruence; try discriminate).
Qed.

Lemma elem_of_claimable (max_attempts : Z) (d : db) (s : story) :
  s ∈ Database.queue_rows max_attempts d <-> eligible max_attempts d s.
Proof.
  unfold Database.queue_rows. cbv zeta.
  rewrite elem_of_app, !list_elem_of_filter, elem_of_scan, claimable_spec.
  unfold eligible. tauto.
Qed.

Lemma claim_Some (now max_attempts : Z) (d : db) (j : job) (d' : db) :
  Database.claim_next_content_job now max_attempts d = (Some j, d') ->
  exists s,
    eligible max_attempts d s
    /\ (forall s', eligible max_attempts d s' -> queue_le s s')
    /\ j = mkJob (id s) (url s) (domain s) (content_attempts s + 1)
    /\ d' = with_stories (<[id s := claimed now s]> (stories d)) d.
Proof.
  unfold Database.claim_next_content_job.
  destruct (Database.first_by _ _) as [s|] eqn:Hfirst; [|discriminate].
  intros [= <- <-]. exists s.
  apply first_by_queue in Hfirst as [Hin Hmin].
  split; [now apply elem_of_claimable|].
  split; [|split; reflexivity].
  intros s' Hs'. apply Hmin. now apply elem_of_claimable.
Qed.

Lemma claim_None (now max_attempts : Z) (d d' : db) :
  Database.claim_next_content_job now max_attempts d = (None, d') ->
  d' = d /\ forall s, ~ eligible max_attempts d s.
Proof.
  unfold Database.claim_next_content_job.
  destruct (Database.first_by _ _) as [s|] eqn:Hfirst; [discriminate|].
  intros [= <-]. split; [reflexivity|].
  intros s Hs. apply elem_of_claimable in Hs.
  apply first_by_None in Hfirst. rewrite Hfirst in Hs.
  now apply elem_of_nil in Hs.
Qed.

(** C4. Atomic job claim: the claim takes one story that is eligible (status
    pending or retry, a url, fewer than [max_attempts] attempts) and comes
    first under attempts ascending, then time ascending: it is the one
    eligible story strictly before all others whenever there is such a
    story. On that row alone it sets the status to fetching and adds one to
    the attempts, and it returns the row's id, url, domain and new attempt
    count. With no eligible story it returns [None] and the store is
    unchanged. *)
Theorem atomic_job_claim (now max_attempts : Z) (d : db) :
  keyed_by_id d ->
  match Database.claim_next_content_job now max_attempts d with
  | (Some j, d') =>
      exists s,
        eligible max_attempts d s
        /\ stories d !! id s = Some s
        /\ (forall s', eligible max_attempts d s' -> queue_le s s')
        /\ (forall m, eligible max_attempts d m ->
              (forall s', eligible max_attempts d s' -> s' <> m -> ~ queue_le s' m) ->
              m = s)
        /\ (exists s', stories d' !! id s = Some s'
              /\ content_status s' = Fetching
              /\ content_attempts s' = content_attempts s + 1
              /\ s' = set_updated_at (updated_at s')
                        (set_content_attempts (content_attempts s')
                           (set_content_status (content_status s') s)))
        /\ (forall k, k <> id s -> stories d' !! k = stories d !! k)
        /\ same_side_tables d d'
        /\ j = mkJob (id s) (url s) (domain s) (content_attempts s + 1)
  | (None, d') => d' = d /\ forall s, ~ eligible max_attempts d s
  end.
Proof.
  intros Hwf.
  destruct (Database.claim_next_content_job now max_attempts d) as [[j|] d'] eqn:Hclaim.
  - apply claim_Some in Hclaim as (s & Hel & Hmin & -> & ->).
    exists s. split; [assumption|].
    assert (Hs : stories d !! id s = Some s).
    { destruct Hel as [[k Hk] _]. now rewrite (Hwf k s Hk). }
    split; [assumption|]. split; [assumption|]. split.
    { intros m Hm Hstrict. destruct (decide (id m = id s)) as [Heq|Hne].
      - destruct Hm as [[k Hk] _]. rewrite <- (Hwf k m Hk), Heq in Hk. congruence.
      - exfalso. apply (Hstrict s Hel); [congruence|]. now apply Hmin. }
    split.
    { exists (claimed now s). rewrite stories_with_stories, lookup_insert_eq.
      repeat split. }
    split.
    { intros k Hk. rewrite stories_with_stories. now apply lookup_insert_ne. }
    split; [apply same_side_tables_with_stories|reflexivity].
  - now apply claim_None in Hclaim.
Qed.

Lemma atomic_job_claim_example :
  keyed_by_id Sample.queue_db
  /\ match Database.claim_next_content_job 1000 3 Sample.queue_db with
     | (Some j, d') =>
         exists s,
           eligible 3 Sample.queue_db s
           /\ stories Sample.queue_db !! id s = Some s
           /\ (forall s', eligible 3 Sample.queue_db s' -> queue_le s s')
           /\ (forall m, eligible 3 Sample.queue_db m ->
                 (forall s', eligible 3 Sample.queue_db s' -> s' <> m -> ~ queue_le s' m) ->
                 m = s)
           /\ (exists s', stories d' !! id s = Some s'
                 /\ content_status s' = Fetching
                 /\ content_attempts s' = content_attempts s + 1
                 /\ s' = set_updated_at (updated_at s')
                           (set_content_attempts (content_attempts s')
                              (set_content_status (content_status s') s)))
           /\ (forall k, k <> id s -> stories d' !! k = stories Sample.queue_db !! k)
           /\ same_side_tables Sample.queue_db d'
           /\ j = mkJob (id s) (url s) (domain s) (content_attempts s + 1)
     | (None, d') => d' = Sample.queue_db /\ forall s, ~ eligible 3 Sample.queue_db s
     end.
Proof.
  assert (Hwf : keyed_by_id Sample.queue_db).
  { unfold keyed_by_id. by_evaluation. }
  split; [exact Hwf|].
  exact (atomic_job_claim 1000 3 Sample.queue_db Hwf).
Defined.

(** ** Attempt counts *)

Lemma update_story_lookup (story_id : Z) (f : story -> story) (d : db) (k : Z) (s : story) :
  stories (update_story story_id f d) !! k = Some s ->
  (exists s0, stories d !! k = Some s0 /\ s = f s0) \/ stories d !! k = Some s.
Proof.
  unfold update_story. rewrite stories_with_stories.
  intros [[-> (x & Hx & ->)]|[_ Hk]]%lookup_alter_Some; eauto.
Qed.

Lemma update_where_lookup (cond : story -> bool) (f : story -> story) (d : db)
    (k : Z) (s : story) :
  stories (update_where cond f d).2 !! k = Some s ->
  (exists s0, stories d !! k = Some s0 /\ s = f s0) \/ stories d !! k = Some s.
Proof.
  unfold update_where. cbn [snd]. rewrite stories_with_stories, lookup_fmap.
  destruct (stories d !! k) as [s0|] eqn:Hk; simpl; [|discriminate].
  intros [= <-]. destruct (cond s0); eauto.
Qed.

Section Invariants.
Variable P : Z -> story -> Prop.

(** A property of rows that the column updates of [f] keep. *)
Lemma update_story_Forall (story_id : Z) (f : story -> story) (d : db) :
  (forall k s, P k s -> P k (f s)) ->
  map_Forall P (stories d) -> map_Forall P (stories (update_story story_id f d)).
Proof.
  intros Hf Hd k s [(s0 & Hk & ->)|Hk]%update_story_lookup; eauto.
Qed.

Lemma update_where_Forall (cond : story -> bool) (f : story -> story) (d : db) :
  (forall k s, P k s -> P k (f s)) ->
  map_Forall P (stories d) -> map_Forall P (stories (update_where cond f d).2).
Proof.
  intros Hf Hd k s [(s0 & Hk & ->)|Hk]%update_where_lookup; eauto.
Qed.

Lemma insert_story_Forall (k : Z) (s : story) (d : db) :
  P k s -> map_Forall P (stories d) ->
  map_Forall P (stories (with_stories (<[k := s]> (stories d)) d)).
Proof.
  intros Hs Hd. rewrite stories_with_stories. now apply map_Forall_insert_2.
Qed.

Lemma cleanup_stuck_Forall (now max_attempts : Z) (d : db) :
  (forall k s st, P k s -> P k (set_updated_at now (set_content_status st s))) ->
  map_Forall P (stories d) ->
  map_Forall P (stories (Database.cleanup_stuck_content_jobs now max_attempts d).2).
Proof.
  intros Hf Hd. unfold Database.cleanup_stuck_content_jobs.
  destruct (update_where _ _ d) as [n1 d1] eqn:E1.
  destruct (update_where _ _ d1) as [n2 d2] eqn:E2.
  destruct (update_where _ _ d2) as [n3 d3] eqn:E3. cbn [snd].
  replace d3 with (update_where
    (fun s => negb (terminal (content_status s)) && (max_attempts <=? content_attempts s))
    (fun s => set_updated_at now (set_content_status Failed s)) d2).2 by now rewrite E3.
  apply update_where_Forall; [intros; now apply Hf|].
  replace d2 with (update_where
    (fun s => bool_decide (content_status s = Fetching) && (content_attempts s <? max_attempts))
    (fun s => set_updated_at now (set_content_status Retry s)) d1).2 by now rewrite E2.
  apply update_where_Forall; [intros; now apply Hf|].
  replace d1 with (update_where
    (fun s => match url s with None => true | Some _ => false end
              && negb (terminal (content_status s)))
    (fun s => set_updated_at now (set_content_status Skipped s)) d).2 by now rewrite E1.
  apply update_where_Forall; [intros; now apply Hf|assumption].
Qed.

End Invariants.

Section QueueInvariants.
Context {C : Codec}.

Lemma run_op_attempts_bounded (now : Z) (op : store_op) (d : db) :
  attempts_bounded d -> attempts_bounded (run_op now op d).
Proof.
  unfold attempts_bounded. intros Hd. destruct op as [|i|i c st src ms| |st]; cbn [run_op].
  - destruct (Database.claim_next_content_job now MAX_RETRIES d) as [[j|] d'] eqn:Hclaim.
    + apply claim_Some in Hclaim as (s & Hel & _ & _ & ->). cbn [snd].
      apply insert_story_Forall; [|assumption].
      destruct Hel as (_ & _ & _ & Hlt). cbn. unfold MAX_RETRIES in *. lia.
    + apply claim_None in Hclaim as [-> _]. exact Hd.
  - apply update_story_Forall; [|assumption]. intros k s Hs. exact Hs.
  - apply update_story_Forall; [|assumption]. intros k s Hs. exact Hs.
  - apply cleanup_stuck_Forall; [|assumption]. intros k s st Hs. exact Hs.
  - unfold Database.upsert_story.
    destruct (negb _ && _); destruct (stories d !! d_id st) as [old|] eqn:Hold;
      apply insert_story_Forall; try assumption; cbn; unfold MAX_RETRIES;
      try lia; exact (Hd _ _ Hold).
Qed.

Lemma run_op_keyed_by_id (now : Z) (op : store_op) (d : db) :
  keyed_by_id d -> keyed_by_id (run_op now op d).
Proof.
  unfold keyed_by_id. intros Hd. destruct op as [|i|i c st src ms| |st]; cbn [run_op].
  - destruct (Database.claim_next_content_job now MAX_RETRIES d) as [[j|] d'] eqn:Hclaim.
    + apply claim_Some in Hclaim as (s & Hel & _ & _ & ->). cbn [snd].
      apply insert_story_Forall; [reflexivity|assumption].
    + apply claim_None in Hclaim as [-> _]. exact Hd.
  - apply update_story_Forall; [|assumption]. intros k s Hs. exact Hs.
  - apply update_story_Forall; [|assumption]. intros k s Hs. exact Hs.
  - apply cleanup_stuck_Forall; [|assumption]. intros k s st Hs. exact Hs.
  - unfold Database.upsert_story.
    destruct (negb _ && _); destruct (stories d !! d_id st) as [old|] eqn:Hold;
      apply insert_story_Forall; try assumption; cbn;
      try reflexivity; exact (Hd _ _ Hold).
Qed.

(** The two invariants hold along every run. *)
Lemma run_ops_invariants (ops : list (Z * store_op)) (d : db) :
  keyed_by_id d -> attempts_bounded d ->
  keyed_by_id (run_ops ops d) /\ attempts_bounded (run_ops ops d).
Proof.
  revert d. induction ops as [|[now op] ops IH]; intros d Hk Hb; cbn [run_ops].
  - now split.
  - apply IH; [now apply run_op_keyed_by_id|now apply run_op_attempts_bounded].
Qed.

Lemma claim_skips_terminal (now max_attempts : Z) (d : db) (j : job) (d' : db) :
  keyed_by_id d ->
  Database.claim_next_content_job now max_attempts d = (Some j, d') ->
  exists s, stories d !! job_id j = Some s /\ terminal (content_status s) = false.
Proof.
  intros Hwf Hclaim. apply claim_Some in Hclaim as (s & Hel & _ & -> & _).
  exists s. cbn [job_id]. destruct Hel as ([k Hk] & Hst & _). split.
  - now rewrite (Hwf k s Hk).
  - destruct Hst as [-> | ->]; reflexivity.
Qed.

End QueueInvariants.

(** C5. Attempt counts and terminal states: from a store in which no story
    has more than [MAX_RETRIES] (3) attempts, each of the claim, the retry,
    the completion, the stuck-job cleanup and the upsert leaves a store in
    which no story has more than [MAX_RETRIES] attempts; and the story a claim
    takes never has a terminal status (done, failed, blocked, skipped). *)
Theorem attempts_stay_bounded (C : Codec) (now : Z) (op : store_op) (d : db) :
  keyed_by_id d ->
  attempts_bounded d ->
  attempts_bounded (run_op now op d)
  /\ forall j d',
       Database.claim_next_content_job now MAX_RETRIES d = (Some j, d') ->
       exists s, stories d !! job_id j = Some s /\ terminal (content_status s) = false.
Proof.
  intros Hwf Hb. split.
  - now apply run_op_attempts_bounded.
  - intros j d' Hclaim. eapply claim_skips_terminal; eassumption.
Qed.

Lemma attempts_stay_bounded_example :
  (keyed_by_id Sample.queue_db /\ attempts_bounded Sample.queue_db)
  /\ attempts_bounded (@run_op sample_codec 1000 ClaimNext Sample.queue_db)
  /\ forall j d',
       Database.claim_next_content_job 1000 MAX_RETRIES Sample.queue_db = (Some j, d') ->
       exists s, stories Sample.queue_db !! job_id j = Some s
                 /\ terminal (content_status s) = false.
Proof.
  assert (Hwf : keyed_by_id Sample.queue_db).
  { unfold keyed_by_id. by_evaluation. }
  assert (Hb : attempts_bounded Sample.queue_db).
  { unfold attempts_bounded. by_evaluation. }
  split; [split; assumption|].
  exact (attempts_stay_bounded sample_codec 1000 ClaimNext Sample.queue_db Hwf Hb).
Defined.

(** ** Upsert *)




(** ** The worker's cache hit *)

Lemma cache_hit_copies_billed_ms :
  let d' := (@content_worker_iteration sample_codec 2 1000 Sample.renderer_down 0
               Sample.cached_db).2 in
  (Database.claim_next_content_job 1000 MAX_RETRIES Sample.cached_db).1
  = Some (mkJob 3 (Some "https://example.com/c") (Some "example.com") 1)
  /\ is_Some (Database.get_cached_content (Some "https://example.com/c") Sample.cached_db)
  /\ content_status <$> stories d' !! 3 = Some Done
  /\ browser_ms <$> stories d' !! 3 = Some (1500 # 1)%Q
  /\ browser_ms <$> stories d' !! 3 <> Some 0%Q.
Proof.
  cbv zeta. split; [vm_compute; reflexivity|].
  split; [vm_compute; eauto|].
  split; [vm_compute; reflexivity|].
  split; [vm_compute; reflexivity|].
  vm_compute. discriminate.
Qed.

Section CacheHit.
Context {C : Codec}.

Lemma complete_content_job_lookup (now story_id : Z) (c : option string) (st : status)
    (src : option string) (ms : Q) (d : db) (s : story) :
  stories d !! story_id = Some s ->
  exists s',
    stories (Database.complete_content_job now story_id c st src ms d) !! story_id = Some s'
    /\ content s' = compress_content <$> c
    /\ content_status s' = st
    /\ content_source s' = src
    /\ browser_ms s' = ms
    /\ teaser s' = teaser s.
Proof.
  intros Hs. unfold Database.complete_content_job, update_story.
  rewrite stories_with_stories, lookup_alter_eq, Hs. cbn [fmap option_fmap option_map].
  eexists. split; [reflexivity|]. cbn. repeat split.
  destruct c as [[|a c]|]; reflexivity.
Qed.

End CacheHit.

(** C3 (amended). URL-cache hit: when the worker claims a job whose url has
    an entry in [fetched_urls], the story ends with status done, the cached
    payload (compressed) as content, the cached source tag, and the cached
    entry's browser_ms in its browser_ms column; nothing is appended to
    [usage_log]. *)
Theorem cache_hit_completes_job (C : Codec) (worker_id now : Z)
    (fetch_content : option string -> FetchResult) (idle_iterations : Z)
    (d : db) (j : job) (d0 : db) (cached : cache_row) :
  Database.claim_next_content_job now MAX_RETRIES d = (Some j, d0) ->
  Database.get_cached_content (job_url j) d = Some cached ->
  let d' := (content_worker_iteration worker_id now fetch_content idle_iterations d).2 in
  (exists s',
     stories d' !! job_id j = Some s'
     /\ content_status s' = Done
     /\ content s' = compress_content <$> cache_content_ cached
     /\ content_source s' = cache_source cached
     /\ browser_ms s' = cache_browser_ms cached)
  /\ usage_log d' = usage_log d.
Proof.
  intros Hclaim Hcache d'. subst d'. unfold content_worker_iteration. rewrite Hclaim.
  apply claim_Some in Hclaim as (s & Hel & _ & -> & ->). cbn [job_id job_url snd] in *.
  replace (Database.get_cached_content (url s)
             (with_stories (<[id s:=claimed now s]> (stories d)) d))
    with (Database.get_cached_content (url s) d) by reflexivity.
  rewrite Hcache. split.
  - destruct (complete_content_job_lookup now (id s) (cache_content_ cached) Done
                (cache_source cached) (cache_browser_ms cached)
                (with_stories (<[id s:=claimed now s]> (stories d)) d) (claimed now s))
      as (s' & Hs' & Hc & Hst & Hsrc & Hms & _).
    { rewrite stories_with_stories. apply lookup_insert_eq. }
    exists s'. auto.
  - reflexivity.
Qed.

Lemma cache_hit_completes_job_example :
  let d' := (@content_worker_iteration sample_codec 2 1000 Sample.renderer_down 0
               Sample.cached_db).2 in
  (exists s',
     stories d' !! 3 = Some s'
     /\ content_status s' = Done
     /\ content s' = Some (@compress_content sample_codec "The article, as rendered before")
     /\ content_source s' = Some "cloudflare"
     /\ browser_ms s' = (1500 # 1)%Q)
  /\ usage_log d' = usage_log Sample.cached_db.
Proof.
  exact (cache_hit_completes_job sample_codec 2 1000 Sample.renderer_down 0
           Sample.cached_db
           (mkJob 3 (Some "https://example.com/c") (Some "example.com") 1)
           (Database.claim_next_content_job 1000 MAX_RETRIES Sample.cached_db).2
           (mkCache (Some "The article, as rendered before") (Some "cloudflare")
              (1500 # 1)%Q 50)
           eq_refl eq_refl).
Defined.

(** ** Dismissing and reading later *)

Lemma dismiss_story_Ok (now story_id : Z) (d : db) :
  fits_int64 story_id = true ->
  exists d',
    Database.dismiss_story now story_id d = Ok d'
    /\ is_Some (dismissed d' !! story_id)
    /\ (is_Some (dismissed d !! story_id) -> d' = d)
    /\ stories d' = stories d.
Proof.
  intros Hfit. unfold Database.dismiss_story. rewrite Hfit. cbn [negb].
  destruct (dismissed d !! story_id) as [t|] eqn:Hd.
  - exists d. rewrite Hd. eauto.
  - eexists. split; [reflexivity|]. cbn. rewrite lookup_insert_eq.
    split; [eauto|]. split; [|reflexivity]. intros [? [=]].
Qed.

Lemma add_read_later_Raise (now story_id : Z) (d : db) :
  fits_int64 story_id = true ->
  read_later_references_stories d ->
  stories d !! story_id = None ->
  Database.add_read_later now story_id d
  = Raise (IntegrityError "FOREIGN KEY constraint failed").
Proof.
  intros Hfit Hfk Hs. unfold Database.add_read_later. rewrite Hfit. cbn [negb].
  destruct (read_later d !! story_id) as [t|] eqn:Hr.
  - destruct (Hfk _ _ Hr) as [s Hs']. congruence.
  - now rewrite Hs.
Qed.

Lemma out_of_range_id_raises (now story_id : Z) (d : db) :
  fits_int64 story_id = false ->
  Database.dismiss_story now story_id d = Raise OverflowError
  /\ Database.add_read_later now story_id d = Raise OverflowError
  /\ Api.dismiss_story now story_id d = (500, d)
  /\ Api.add_read_later now story_id d = (500, d).
Proof.
  intros Hfit.
  unfold Api.dismiss_story, Api.add_read_later, Database.dismiss_story,
    Database.add_read_later.
  rewrite Hfit. repeat split.
Qed.

(** C10 (the original claim at a failing input). The id 2^63 is an integer,
    and the route accepts it, but [sqlite3] cannot bind it: dismissing raises
    [OverflowError], the route answers 500 and no row is stored; adding it
    to read later raises the same error, not the foreign-key error. *)
Lemma dismiss_overflows_beyond_int64 :
  fits_int64 (2 ^ 63) = false
  /\ Database.dismiss_story 1000 (2 ^ 63) Sample.queue_db = Raise OverflowError
  /\ Api.dismiss_story 1000 (2 ^ 63) Sample.queue_db = (500, Sample.queue_db)
  /\ stories Sample.queue_db !! (2 ^ 63) = None
  /\ Database.add_read_later 1000 (2 ^ 63) Sample.queue_db = Raise OverflowError.
Proof. repeat split. Qed.

(** C10 (amended). The two per-user sets differ at the interface, for every
    id that SQLite can hold ([-2^63 <= id < 2^63]): dismissing succeeds, with
    or without a story row, and leaves a dismissed row for it (an existing
    one is kept, the store unchanged); adding to read later an id without a
    story row raises the foreign-key error, which the route answers with
    status 500. *)
Theorem dismiss_succeeds_read_later_needs_story (now story_id : Z) (d : db) :
  fits_int64 story_id = true ->
  read_later_references_stories d ->
  (exists d',
     Database.dismiss_story now story_id d = Ok d'
     /\ is_Some (dismissed d' !! story_id)
     /\ (is_Some (dismissed d !! story_id) -> d' = d)
     /\ Api.dismiss_story now story_id d = (200, d'))
  /\ (stories d !! story_id = None ->
      Database.add_read_later now story_id d
      = Raise (IntegrityError "FOREIGN KEY constraint failed")
      /\ Api.add_read_later now story_id d = (500, d)).
Proof.
  intros Hfit Hfk. split.
  - destruct (dismiss_story_Ok now story_id d Hfit) as (d' & Hok & Hin & Hid & _).
    exists d'. unfold Api.dismiss_story. rewrite Hok. auto.
  - intros Hs. unfold Api.add_read_later.
    rewrite (add_read_later_Raise now story_id d Hfit Hfk Hs). auto.
Qed.

Lemma dismiss_succeeds_read_later_needs_story_example :
  (fits_int64 99 = true
   /\ read_later_references_stories Sample.queue_db
   /\ stories Sample.queue_db !! 99 = None)
  /\ (exists d',
        Database.dismiss_story 1000 99 Sample.queue_db = Ok d'
        /\ is_Some (dismissed d' !! 99)
        /\ (is_Some (dismissed Sample.queue_db !! 99) -> d' = Sample.queue_db)
        /\ Api.dismiss_story 1000 99 Sample.queue_db = (200, d'))
  /\ Database.add_read_later 1000 99 Sample.queue_db
     = Raise (IntegrityError "FOREIGN KEY constraint failed")
  /\ Api.add_read_later 1000 99 Sample.queue_db = (500, Sample.queue_db).
Proof.
  assert (Hfit : fits_int64 99 = true) by reflexivity.
  assert (Hfk : read_later_references_stories Sample.queue_db).
  { unfold read_later_references_stories. by_evaluation. }
  assert (Hs : stories Sample.queue_db !! 99 = None) by reflexivity.
  split; [split; [exact Hfit|split; assumption]|].
  destruct (dismiss_succeeds_read_later_needs_story 1000 99 Sample.queue_db Hfit Hfk)
    as [Hdis Hadd].
  split; [exact Hdis|exact (Hadd Hs)].
Defined.

(** ** Cleanup and the dismissal markers *)

Lemma delete_ids_lookup_None {A} (ids : list Z) (t : gmap Z A) (i : Z) :
  i ∈ ids -> Database.delete_ids ids t !! i = None.
Proof.
  intros Hi. unfold Database.delete_ids. apply map_lookup_filter_None_2.
  right. intros x _ Hni. now apply Hni.
Qed.

(** A story whose dismissal is older than the horizon goes, and its marker
    goes with it, whatever the marker's age. *)
Lemma cleanup_drops_marker_with_story
    (now dismissed_hours max_age_days content_cache_days : Z) (d : db)
    (i : Z) (s : story) (t : Z) :
  keyed_by_id d ->
  stories d !! i = Some s ->
  dismissed d !! i = Some t ->
  t < now - dismissed_hours * 3600 ->
  let d' := (Database.cleanup_stories now dismissed_hours max_age_days
               content_cache_days d).2 in
  stories d' !! i = None /\ dismissed d' !! i = None.
Proof.
  intros Hwf Hs Hd Ht. cbv zeta. unfold Database.cleanup_stories. cbn [snd].
  set (dismissed_ids := id <$> filter _ (Database.scan d)).
  set (old_ids := id <$> filter _ (Database.scan d)).
  assert (Hin : i ∈ dismissed_ids ++ old_ids).
  { apply elem_of_app. left. subst dismissed_ids.
    apply list_elem_of_fmap. exists s. split; [symmetry; exact (Hwf i s Hs)|].
    apply list_elem_of_filter. split; [|apply elem_of_scan; eauto].
    unfold Database.created_before. rewrite (Hwf i s Hs), Hd.
    now apply Z.ltb_lt. }
  destruct (dismissed_ids ++ old_ids) as [|x l] eqn:Hall.
  { now apply elem_of_nil in Hin. }
  cbn [stories dismissed with_dismissed with_fetched_urls]. split.
  - now apply delete_ids_lookup_None.
  - apply map_lookup_filter_None_2. left. now apply delete_ids_lookup_None.
Qed.

(** C1 (the code at the failing input). Story 3 was dismissed at time 1000;
    the cleanup runs 25 hours later with the default horizons. The marker is
    far from its 60 days, yet the cleanup deletes it together with the
    story: the dismissal does not outlive the story. *)
Theorem cleanup_deletes_dismissal_marker :
  let now := 1000 + 25 * 3600 in
  let d' := (Database.cleanup_stories now 24 14 90 Sample.dismissed_db).2 in
  (is_Some (stories Sample.dismissed_db !! 3)
   /\ dismissed Sample.dismissed_db !! 3 = Some 1000
   /\ (1000 <? now - 60 * 24 * 3600) = false)
  /\ stories d' !! 3 = None
  /\ dismissed d' !! 3 = None.
Proof.
  cbv zeta. split.
  - split; [vm_compute; eauto|]. split; reflexivity.
  - assert (Hwf : keyed_by_id Sample.dismissed_db).
    { unfold keyed_by_id. by_evaluation. }
    apply (cleanup_drops_marker_with_story (1000 + 25 * 3600) 24 14 90
             Sample.dismissed_db 3 (Sample.link 3 "https://example.com/c" 80 Pending 0)
             1000 Hwf); reflexivity.
Qed.

(** ** The teaser *)

Section Teaser.
Context {C : Codec}.

(** X11. [update_content] keeps teaser and content together: for a story
    that exists and a non-empty content, it stores the content as given and
    the teaser computed from the decompressed content. *)
Lemma update_content_sets_teaser (now story_id : Z) (c : string) (st : status)
    (src : option string) (ms : Q) (d : db) (s : story) :
  stories d !! story_id = Some s ->
  c <> "" ->
  exists s',
    stories (Database.update_content now story_id c st src ms d) !! story_id = Some s'
    /\ content s' = Some c
    /\ teaser s' = Some (make_teaser (decompress_content c)).
Proof.
  intros Hs Hc. unfold Database.update_content, update_story.
  rewrite stories_with_stories, lookup_alter_eq, Hs. cbn [fmap option_fmap option_map].
  eexists. split; [reflexivity|]. cbn [content teaser set_updated_at set_teaser
    set_browser_ms set_content_source set_content_status set_content].
  split; [reflexivity|].
  destruct c as [|a c]; [congruence|]. cbn [PyStr.truthy].
  destruct (PyStr.startswith COMPRESS_PREFIX (String a c)) eqn:Hp; [reflexivity|].
  now rewrite decompress_plain.
Qed.

(** [complete_content_job] writes no teaser: the column keeps its value. *)
Lemma complete_content_job_keeps_teaser (now story_id : Z) (c : option string)
    (st : status) (src : option string) (ms : Q) (d : db) (k : Z) :
  stories (Database.complete_content_job now story_id c st src ms d) !! k ≫= teaser
  = stories d !! k ≫= teaser.
Proof.
  unfold Database.complete_content_job, update_story.
  rewrite stories_with_stories, lookup_alter.
  destruct (decide (story_id = k)) as [->|]; [|reflexivity].
  destruct (stories d !! k); reflexivity.
Qed.

End Teaser.

(** C2 (the code at the failing input). A worker claims story 3 and the
    renderer returns an article: the story ends done with the compressed
    article as content, and its teaser is still [NULL], not the teaser of the
    article. *)
Theorem worker_completion_writes_no_teaser (C : Codec) :
  let d' := (content_worker_iteration 2 1000 Sample.renderer_up 0 Sample.queue_db).2 in
  stories d' !! 3 ≫= content = Some (compress_content "Fresh article text")
  /\ content_status <$> stories d' !! 3 = Some Done
  /\ stories d' !! 3 ≫= teaser = None
  /\ make_teaser "Fresh article text" = "Fresh article text".
Proof.
  cbv zeta. repeat split; reflexivity.
Qed.

(** ** The listing *)

(** With limit 50 the three stories of the sample queue fit on one page: the
    page is not empty and there is no cursor. *)
Lemma short_page_has_no_cursor :
  exists p,
    Database.get_stories 4 false false false 50 None None "newest" Sample.queue_db = Some (Ok p)
    /\ (fun r => id (row r)) <$> page_stories p = [1; 2; 3]
    /\ Database.cursor_string <$> last (page_stories p) = Some "80:3"
    /\ next_cursor p = None
    /\ next_cursor p <> (Database.cursor_string <$> last (page_stories p)).
Proof.
  eexists. split; [vm_compute; reflexivity|].
  split; [reflexivity|]. split; [reflexivity|]. split; [reflexivity|].
  cbn. discriminate.
Qed.

(** With limit 2, oldest first, the page holds stories 3 and 2 and story 1
    is still to come, but the batch of three rows was not full:
    [has_more] is false. *)
Lemma has_more_false_with_rows_left :
  exists p,
    Database.get_stories 4 false false false 2 None None "oldest" Sample.queue_db = Some (Ok p)
    /\ (fun r => id (row r)) <$> page_stories p = [3; 2]
    /\ next_cursor p = Some "90:2"
    /\ has_more p = false.
Proof.
  eexists. split; [vm_compute; reflexivity|]. repeat split; reflexivity.
Qed.

(** A returned page is built from what the loop collected. *)
Lemma get_stories_Ok (fuel : nat)
    (dismissed_only include_blocked include_read_later : bool)
    (limit : Z) (cursor_time cursor_id : option Z) (sort : string) (d : db) (p : page) :
  Database.get_stories fuel dismissed_only include_blocked include_read_later
    limit cursor_time cursor_id sort d = Some (Ok p) ->
  exists stories_ hm,
    Database.fetch_batches fuel dismissed_only include_blocked include_read_later
      limit sort d ([], ∅) cursor_time cursor_id true = Some (stories_, hm)
    /\ p = mkPage (Database.slice_to limit stories_)
             ((limit <? Z.of_nat (length stories_)) || hm)
             (if negb (bool_decide (stories_ = []))
                 && (hm || (limit <=? Z.of_nat (length stories_)))
              then Database.cursor_string <$>
                     (if Z.of_nat (length stories_) <=? limit then last stories_
                      else stories_ !! Z.to_nat (limit - 1))
              else None).
Proof.
  unfold Database.get_stories.
  destruct (if 0 <? limit then _ else _) as [e|], fuel as [|fuel]; try discriminate.
  all: destruct (Database.fetch_batches _ _ _ _ _ _ _ _ _ _ _) as [[stories_ hm]|];
    [|discriminate]; intros [= <-]; eauto.
Qed.

Lemma filter_rows_length (include_blocked : bool) (limit : Z) (d : db)
    (rows : list listed) (acc : list listed * gset string) :
  Z.of_nat (length acc.1) < limit ->
  Z.of_nat (length (Database.filter_rows include_blocked limit d rows acc).1) <= limit.
Proof.
  revert acc. induction rows as [|r rows IH]; intros acc Hacc; cbn [Database.filter_rows].
  - lia.
  - destruct (negb include_blocked && _); [now apply IH|].
    destruct (bool_decide _); [now apply IH|].
    destruct (Z.leb_spec limit (Z.of_nat (length (acc.1 ++ [r])))) as [Hfull|Hroom].
    + cbn [fst]. rewrite length_app in *. cbn [length] in *. lia.
    + now apply IH.
Qed.

Lemma fetch_batches_length (fuel : nat)
    (dismissed_only include_blocked include_read_later : bool)
    (limit : Z) (sort : string) (d : db) (acc : list listed * gset string)
    (ct ci : option Z) (hm : bool) (stories_ : list listed) (hm' : bool) :
  Database.fetch_batches fuel dismissed_only include_blocked include_read_later
    limit sort d acc ct ci hm = Some (stories_, hm') ->
  Z.of_nat (length acc.1) <= limit \/ acc.1 = [] ->
  Z.of_nat (length stories_) <= limit \/ stories_ = [].
Proof.
  revert acc ct ci hm. induction fuel as [|fuel IH]; intros acc ct ci hm;
    cbn [Database.fetch_batches];
    destruct (Z.ltb_spec (Z.of_nat (length acc.1)) limit) as [Hlt|Hge];
    destruct hm; cbn [andb]; try discriminate;
    try (intros [= <- <-]; tauto).
  destruct (last _) as [last_row|].
  - intros Hrec _. apply IH in Hrec; [assumption|].
    left. now apply filter_rows_length.
  - intros [= <- <-]. tauto.
Qed.

(** C7 (amended). The cursor of a page: when [get_stories] returns a page
    that is not empty, [next_cursor] is the string ["<time>:<id>"] of the
    last story of the page if [has_more] is true or the page holds [limit]
    stories, and [None] otherwise. *)
Theorem next_cursor_of_page (fuel : nat)
    (dismissed_only include_blocked include_read_later : bool)
    (limit : Z) (cursor_time cursor_id : option Z) (sort : string) (d : db) (p : page) :
  Database.get_stories fuel dismissed_only include_blocked include_read_later
    limit cursor_time cursor_id sort d = Some (Ok p) ->
  page_stories p <> [] ->
  next_cursor p
  = if has_more p || (limit <=? Z.of_nat (length (page_stories p)))
    then Database.cursor_string <$> last (page_stories p)
    else None.
Proof.
  intros (stories_ & hm & Hloop & ->)%get_stories_Ok Hne.
  cbn [page_stories has_more next_cursor] in *.
  apply fetch_batches_length in Hloop; [|now right].
  assert (Hst : stories_ <> []).
  { intros ->. apply Hne. unfold Database.slice_to.
    destruct (0 <=? limit); cbn [length]; now rewrite take_nil. }
  destruct Hloop as [Hlen|]; [|contradiction].
  assert (Hpos : 0 < limit) by (destruct stories_; [congruence|cbn [length] in Hlen; lia]).
  assert (Hslice : Database.slice_to limit stories_ = stories_).
  { unfold Database.slice_to. destruct (Z.leb_spec 0 limit); [|lia].
    apply take_ge. lia. }
  rewrite Hslice.
  rewrite bool_decide_eq_false_2 by assumption. cbn [negb andb].
  destruct (Z.ltb_spec limit (Z.of_nat (length stories_))); [lia|]. cbn [orb].
  destruct (hm || (limit <=? Z.of_nat (length stories_))); [|reflexivity].
  destruct (Z.leb_spec (Z.of_nat (length stories_)) limit); [reflexivity|lia].
Qed.

Lemma next_cursor_of_page_example :
  let p := mkPage
             [ mkListed (Sample.link 3 "https://example.com/c" 80 Pending 0)
                 false false false false;
               mkListed (Sample.link 2 "https://example.com/b" 90 Retry 1)
                 false false false false ]
             false (Some "90:2") in
  (Database.get_stories 4 false false false 2 None None "oldest" Sample.queue_db = Some (Ok p)
   /\ page_stories p <> [])
  /\ next_cursor p
     = if has_more p || (2 <=? Z.of_nat (length (page_stories p)))
       then Database.cursor_string <$> last (page_stories p)
       else None.
Proof.
  cbv zeta.
  assert (Hrun : Database.get_stories 4 false false false 2 None None "oldest"
                   Sample.queue_db
                 = Some (Ok (mkPage
                               [ mkListed (Sample.link 3 "https://example.com/c" 80
                                             Pending 0) false false false false;
                                 mkListed (Sample.link 2 "https://example.com/b" 90
                                             Retry 1) false false false false ]
                               false (Some "90:2")))) by (vm_compute; reflexivity).
  split; [split; [exact Hrun|discriminate]|].
  apply (next_cursor_of_page 4 false false false 2 None None "oldest" Sample.queue_db _ Hrun).
  discriminate.
Defined.

(** More fuel does not change what the loop returns. *)
Lemma fetch_batches_more_fuel (fuel fuel' : nat)
    (dismissed_only include_blocked include_read_later : bool)
    (limit : Z) (sort : string) (d : db) (acc : list listed * gset string)
    (ct ci : option Z) (hm : bool) (r : list listed * bool) :
  (fuel <= fuel')%nat ->
  Database.fetch_batches fuel dismissed_only include_blocked include_read_later
    limit sort d acc ct ci hm = Some r ->
  Database.fetch_batches fuel' dismissed_only include_blocked include_read_later
    limit sort d acc ct ci hm = Some r.
Proof.
  revert fuel' acc ct ci hm.
  induction fuel as [|fuel IH]; intros fuel' acc ct ci hm Hle;
    destruct fuel' as [|fuel']; try lia; cbn [Database.fetch_batches];
    destruct ((Z.of_nat (length acc.1) <? limit) && hm); try discriminate; auto.
  destruct (last _); [|auto]. apply IH. lia.
Qed.

(** *** The listing returns *)

Section ListingReturns.
Variables dismissed_only include_blocked include_read_later : bool.
Variable sort : string.
Variable d : db.

Local Abbreviation candidates :=
  (candidates dismissed_only include_blocked include_read_later sort d).

Lemma elem_of_sql_limit_rows {A} (n : Z) (l : list A) (x : A) :
  x ∈ Database.sql_limit_rows n l -> x ∈ l.
Proof.
  unfold Database.sql_limit_rows. destruct (n <? 0); [auto|].
  intros (i & Hi & _)%elem_of_take. apply list_elem_of_lookup. eauto.
Qed.

Lemma elem_of_select_scored (ct ci : option Z) (sql_limit : Z) (r : listed) :
  r ∈ Database.select_scored dismissed_only include_blocked include_read_later
        sort ct ci sql_limit d ->
  r ∈ candidates ct ci.
Proof.
  unfold Database.select_scored. intros H%elem_of_sql_limit_rows.
  now rewrite merge_sort_Permutation in H.
Qed.

Lemma after_cursor_irrefl (r : listed) (t : Z) :
  time (row r) = Some t -> Database.after_cursor sort t (id (row r)) r = false.
Proof.
  intros Ht. unfold Database.after_cursor, sql_gt, sql_lt, sql_eq. rewrite Ht.
  destruct (String.eqb sort "newest");
    rewrite orb_false_iff, andb_false_iff, !Z.ltb_ge; lia.
Qed.

Lemma after_cursor_trans (ct ci t : Z) (lr r : listed) :
  time (row lr) = Some t ->
  Database.after_cursor sort ct ci lr = true ->
  Database.after_cursor sort t (id (row lr)) r = true ->
  Database.after_cursor sort ct ci r = true.
Proof.
  intros Ht. unfold Database.after_cursor, sql_gt, sql_lt, sql_eq. rewrite Ht.
  destruct (String.eqb sort "newest"), (time (row r)) as [tr|];
    cbn [orb andb]; try discriminate;
    rewrite !orb_true_iff, !andb_true_iff, !Z.ltb_lt, !Z.eqb_eq; lia.
Qed.

(** Moving the cursor to a selected row with a time leaves fewer rows. *)
Lemma candidates_shrink (ct ci : option Z) (lr : listed) (t : Z) :
  lr ∈ candidates ct ci ->
  time (row lr) = Some t ->
  (length (candidates (Some t) (Some (id (row lr)))) < length (candidates ct ci))%nat.
Proof.
  intros Hin Ht. unfold candidates in *.
  pose proof Hin as [Hlr _]%list_elem_of_filter.
  rewrite <- (list_filter_filter_l
                (fun r => Database.where_clause dismissed_only include_blocked
                            include_read_later sort (Some t) (Some (id (row lr))) r = true)
                (fun r => Database.where_clause dismissed_only include_blocked
                            include_read_later sort ct ci r = true)).
  - apply (length_filter_lt _ _ lr); [assumption|].
    unfold Database.where_clause. rewrite (after_cursor_irrefl lr t Ht).
    rewrite andb_false_r. discriminate.
  - intros r. unfold Database.where_clause in *.
    rewrite !andb_true_iff in *. intros (Hflags & Hcur). split; [assumption|].
    destruct ct as [ct|], ci as [ci|]; try reflexivity.
    destruct Hlr as [_ Hlr]. eapply after_cursor_trans; eassumption.
Qed.

Hypothesis times_known : forall k s, stories d !! k = Some s -> time s <> None.

Lemma scored_time (r : listed) : r ∈ Database.scored d -> exists t, time (row r) = Some t.
Proof.
  unfold Database.scored. intros (s & -> & Hs)%list_elem_of_fmap.
  apply elem_of_scan in Hs as [k Hk]. cbn [row].
  destruct (time s) eqn:E; [eauto|]. now apply times_known in Hk.
Qed.

Lemma fetch_batches_returns (limit : Z) (fuel : nat) (acc : list listed * gset string)
    (ct ci : option Z) (hm : bool) :
  (length (candidates ct ci) < fuel)%nat ->
  is_Some (Database.fetch_batches fuel dismissed_only include_blocked
             include_read_later limit sort d acc ct ci hm).
Proof.
  revert acc ct ci hm. induction fuel as [|fuel IH]; intros acc ct ci hm Hfuel; [lia|].
  cbn [Database.fetch_batches].
  destruct ((Z.of_nat (length acc.1) <? limit) && hm); [|eauto].
  destruct (last _) as [lr|] eqn:Hlast; [|eauto].
  apply last_Some_elem_of, elem_of_select_scored in Hlast.
  pose proof Hlast as [_ [t Ht]%scored_time]%list_elem_of_filter.
  apply IH. rewrite Ht.
  pose proof (candidates_shrink ct ci lr t Hlast Ht). lia.
Qed.

(** X10. The listing ends: when every story has a time, a call of
    [get_stories] ends after at most one batch per story and one more, with
    a page or with the exception of its first query; and it returns a page
    for every sort order, every limit with [3 * limit <= 2^63 - 1] and
    every cursor that is absent or within the 64-bit range. *)
Lemma get_stories_returns (limit : Z) (cursor_time cursor_id : option Z) :
  is_Some (Database.get_stories (S (size (stories d))) dismissed_only include_blocked
             include_read_later limit cursor_time cursor_id sort d)
  /\ (limit * 3 <= 2 ^ 63 - 1 ->
      (forall t i, cursor_time = Some t -> cursor_id = Some i ->
                   fits_int64 t = true /\ fits_int64 i = true) ->
      exists p,
        Database.get_stories (S (size (stories d))) dismissed_only include_blocked
          include_read_later limit cursor_time cursor_id sort d = Some (Ok p)).
Proof.
  destruct (fetch_batches_returns limit (S (size (stories d))) ([], ∅)
              cursor_time cursor_id true) as [[st hm] Hrun].
  { unfold candidates. pose proof (length_filter
      (fun r => Database.where_clause dismissed_only include_blocked
                  include_read_later sort cursor_time cursor_id r = true)
      (Database.scored d)) as Hle.
    assert (Hsize : length (Database.scored d) = size (stories d)).
    { unfold Database.scored. now rewrite length_fmap, length_scan. }
    lia. }
  unfold Database.get_stories. rewrite Hrun. split.
  - destruct (if 0 <? limit then _ else _); eauto.
  - intros Hlimit Hcursor.
    assert (Herr : Database.first_query_error limit cursor_time cursor_id = None).
    { unfold Database.first_query_error.
      destruct cursor_time as [t|], cursor_id as [i|];
        try (destruct (Hcursor t i eq_refl eq_refl) as [-> ->]; cbn [andb negb]);
        destruct (Z.ltb_spec (2 ^ 63 - 1) (limit * 3)); try reflexivity; lia. }
    rewrite Herr. destruct (0 <? limit); eauto.
Qed.

End ListingReturns.

(** * Further properties of the store *)

(** ** Recovery of stuck jobs *)

Lemma with_stories_same (d : db) : with_stories (stories d) d = d.
Proof. now destruct d. Qed.

Lemma cleanup_stuck_stories (now max_attempts : Z) (d : db) :
  stories (Database.cleanup_stuck_content_jobs now max_attempts d).2
  = stuck_fix now max_attempts <$> stories d.
Proof.
  unfold Database.cleanup_stuck_content_jobs, update_where. cbn [snd stories with_stories].
  rewrite <- !map_fmap_compose. reflexivity.
Qed.

Lemma cleanup_stuck_side_tables (now max_attempts : Z) (d : db) :
  same_side_tables d (Database.cleanup_stuck_content_jobs now max_attempts d).2.
Proof. repeat split. Qed.

Lemma stuck_fix_settles (now max_attempts : Z) (s : story) :
  terminal (content_status (stuck_fix now max_attempts s)) = true
  \/ Database.claimable max_attempts (stuck_fix now max_attempts s) = true.
Proof.
  destruct s as [i ti u dm b t sc de c st a src ms hit rk cr up te].
  unfold stuck_fix, Database.claimable. cbn.
  destruct u, st; cbn;
    destruct (Z.ltb_spec a max_attempts), (Z.leb_spec max_attempts a);
    try lia; cbn;
    repeat (case_bool_decide; try discriminate; try congruence; cbn);
    rewrite ?andb_true_r;
    repeat match goal with
           | |- context [a <? max_attempts] =>
               destruct (Z.ltb_spec a max_attempts); try lia
           | |- context [max_attempts <=? a] =>
               destruct (Z.leb_spec max_attempts a); try lia
           end; cbn; auto; right; now apply Z.ltb_lt.
Qed.

Lemma update_where_noop (cond : story -> bool) (f : story -> story) (d : db) :
  map_Forall (fun _ s => cond s = false) (stories d) ->
  update_where cond f d = (0, d).
Proof.
  intros Hno. unfold update_where. f_equal.
  - replace (filter (fun kv : Z * story => cond kv.2 = true) (stories d))
      with (∅ : gmap Z story); [now rewrite map_size_empty|].
    symmetry. apply map_empty. intros k. apply map_lookup_filter_None_2.
    right. intros s Hs. cbn. rewrite (Hno k s Hs). discriminate.
  - assert (Hm : (fun s => if cond s then f s else s) <$> stories d = stories d).
    { apply map_eq. intros k. rewrite lookup_fmap.
      destruct (stories d !! k) as [s|] eqn:Hs; [|reflexivity].
      cbn. now rewrite (Hno k s Hs). }
    rewrite Hm. apply with_stories_same.
Qed.

Lemma settled_not_matched (max_attempts : Z) (s : story) :
  terminal (content_status s) = true \/ Database.claimable max_attempts s = true ->
  (match url s with None => true | Some _ => false end
   && negb (terminal (content_status s))) = false
  /\ (bool_decide (content_status s = Fetching)
      && (content_attempts s <? max_attempts)) = false
  /\ (negb (terminal (content_status s))
      && (max_attempts <=? content_attempts s)) = false.
Proof.
  unfold Database.claimable. intros [Ht|Hc].
  - rewrite Ht. cbn [negb]. rewrite !andb_false_r. split; [reflexivity|].
    split; [|reflexivity].
    destruct (content_status s); try discriminate;
      now rewrite bool_decide_eq_false_2 by discriminate.
  - apply andb_true_iff in Hc as [[Hst Hu]%andb_true_iff Hlt].
    apply Z.ltb_lt in Hlt.
    destruct (url s); [|discriminate]. split; [reflexivity|].
    split.
    + destruct (content_status s); try discriminate;
        now rewrite bool_decide_eq_false_2 by discriminate.
    + apply andb_false_iff. right. apply Z.leb_gt. lia.
Qed.

Lemma cleanup_stuck_none_stuck (now max_attempts : Z) (d : db) :
  none_stuck max_attempts (Database.cleanup_stuck_content_jobs now max_attempts d).2.
Proof.
  unfold none_stuck. rewrite cleanup_stuck_stories.
  intros k s'. rewrite lookup_fmap.
  destruct (stories d !! k) as [s|]; [|discriminate].
  intros [= <-]. apply stuck_fix_settles.
Qed.

Lemma cleanup_stuck_noop (now max_attempts : Z) (d : db) :
  none_stuck max_attempts d ->
  Database.cleanup_stuck_content_jobs now max_attempts d = (0, d).
Proof.
  intros Hd. unfold Database.cleanup_stuck_content_jobs.
  rewrite update_where_noop
    by (intros k s Hs; apply (settled_not_matched max_attempts s), (Hd k s Hs)).
  rewrite update_where_noop
    by (intros k s Hs; apply (settled_not_matched max_attempts s), (Hd k s Hs)).
  rewrite update_where_noop
    by (intros k s Hs; apply (settled_not_matched max_attempts s), (Hd k s Hs)).
  reflexivity.
Qed.

(** X1. After the stuck-job cleanup every story is finished (done, failed,
    blocked or skipped) or claimable (pending or retry, with a url and fewer
    than [max_attempts] attempts); the cleanup creates and deletes no story,
    keeps every attempt count and writes no other table. *)
Theorem cleanup_stuck_settles_every_story (now max_attempts : Z) (d : db) :
  let d' := (Database.cleanup_stuck_content_jobs now max_attempts d).2 in
  none_stuck max_attempts d'
  /\ dom (stories d') = dom (stories d)
  /\ content_attempts <$> stories d' = content_attempts <$> stories d
  /\ same_side_tables d d'.
Proof.
  cbv zeta. split; [apply cleanup_stuck_none_stuck|].
  rewrite cleanup_stuck_stories. split; [apply dom_fmap_L|].
  split; [|apply cleanup_stuck_side_tables].
  rewrite <- map_fmap_compose. apply map_fmap_ext. intros k s _. cbn.
  unfold stuck_fix.
  repeat match goal with |- context [if ?b then _ else _] => destruct b end;
    reflexivity.
Qed.

(** X2. The stuck-job cleanup is idempotent: run again, at any later time,
    it reports 0 fixed jobs and leaves the store as it is. *)
Theorem cleanup_stuck_twice (now now' max_attempts : Z) (d : db) :
  Database.cleanup_stuck_content_jobs now' max_attempts
    (Database.cleanup_stuck_content_jobs now max_attempts d).2
  = (0, (Database.cleanup_stuck_content_jobs now max_attempts d).2).
Proof. apply cleanup_stuck_noop, cleanup_stuck_none_stuck. Qed.

(** ** Claims and the worker *)

Lemma update_story_lookup_at (story_id : Z) (f : story -> story) (d : db) (k : Z) :
  stories (update_story story_id f d) !! k
  = if decide (story_id = k) then f <$> stories d !! story_id else stories d !! k.
Proof. unfold update_story. rewrite stories_with_stories. apply lookup_alter. Qed.

(** X3. A claimed story cannot be claimed again while it is being fetched:
    after a claim the story is in status fetching, its new attempt count is
    at most [max_attempts], and no further claim on the resulting store
    returns its id. *)
Theorem claimed_story_is_taken (now max_attempts : Z) (d : db) (j : job) (d' : db) :
  keyed_by_id d ->
  Database.claim_next_content_job now max_attempts d = (Some j, d') ->
  content_status <$> stories d' !! job_id j = Some Fetching
  /\ job_content_attempts j <= max_attempts
  /\ forall now' j' d'',
       Database.claim_next_content_job now' max_attempts d' = (Some j', d'') ->
       job_id j' <> job_id j.
Proof.
  intros Hwf Hclaim. apply claim_Some in Hclaim as (s & Hel & _ & -> & ->).
  cbn [job_id job_content_attempts]. rewrite stories_with_stories.
  split; [now rewrite lookup_insert_eq|].
  split; [destruct Hel as (_ & _ & _ & Hlt); lia|].
  intros now' j' d'' Hclaim'.
  apply claim_Some in Hclaim' as (s2 & Hel2 & _ & -> & _). cbn [job_id].
  intros Heq. destruct Hel2 as ([k Hk] & Hst & _).
  rewrite stories_with_stories in Hk.
  destruct (decide (id s = k)) as [<-|Hne].
  - rewrite lookup_insert_eq in Hk. injection Hk as <-.
    cbn in Hst. destruct Hst; discriminate.
  - rewrite lookup_insert_ne in Hk by assumption.
    apply Hne. rewrite <- (Hwf k s2 Hk). congruence.
Qed.

Lemma claimed_story_is_taken_example :
  (keyed_by_id Sample.queue_db
   /\ Database.claim_next_content_job 1000 3 Sample.queue_db
      = (Some (mkJob 3 (Some "https://example.com/c") (Some "example.com") 1),
         (Database.claim_next_content_job 1000 3 Sample.queue_db).2))
  /\ content_status
       <$> stories (Database.claim_next_content_job 1000 3 Sample.queue_db).2 !! 3
     = Some Fetching
  /\ 1 <= 3
  /\ forall now' j' d'',
       Database.claim_next_content_job now' 3
         (Database.claim_next_content_job 1000 3 Sample.queue_db).2 = (Some j', d'') ->
       job_id j' <> 3.
Proof.
  assert (Hwf : keyed_by_id Sample.queue_db).
  { unfold keyed_by_id. by_evaluation. }
  assert (Hclaim : Database.claim_next_content_job 1000 3 Sample.queue_db
      = (Some (mkJob 3 (Some "https://example.com/c") (Some "example.com") 1),
         (Database.claim_next_content_job 1000 3 Sample.queue_db).2))
    by reflexivity.
  split; [split; assumption|].
  exact (claimed_story_is_taken 1000 3 Sample.queue_db _ _ Hwf Hclaim).
Defined.


Section WorkerFacts.
Context {C : Codec}.










End WorkerFacts.




(** ** What a page of the listing holds *)

Lemma startswith_spec (p s : string) :
  PyStr.startswith p s = true <-> exists post, s = p +:+ post.
Proof.
  revert s. induction p as [|a p IH]; intros s; cbn [PyStr.startswith].
  - split; [intros _; now exists s|reflexivity].
  - destruct s as [|b s].
    + split; [discriminate|intros [post Hp]; discriminate].
    + destruct (Ascii.eqb_spec a b) as [->|Hab].
      * rewrite IH. split; intros [post Hp]; exists post.
        -- rewrite Hp. reflexivity.
        -- now injection Hp.
      * split; [discriminate|]. intros [post Hp]. injection Hp as Hba _. congruence.
Qed.

Lemma contains_spec (p s : string) :
  PyStr.contains p s = true <-> substring_of p s.
Proof.
  unfold substring_of. induction s as [|b s IH]; cbn [PyStr.contains].
  - rewrite orb_false_r, startswith_spec. split.
    + intros [post Hp]. now exists "", post.
    + intros (pre & post & Hp). destruct pre; [|discriminate]. now exists post.
  - rewrite orb_true_iff, startswith_spec, IH. split.
    + intros [[post Hp]|(pre & post & Hp)].
      * now exists "", post.
      * exists (String b pre), post. rewrite Hp. reflexivity.
    + intros (pre & post & Hp). destruct pre as [|c pre].
      * left. now exists post.
      * right. injection Hp as _ Hp. now exists pre, post.
Qed.

Lemma blocked_title_false (d : db) (t : string) :
  Database.blocked_title d t = false ->
  forall bw, bw ∈ blocked_words d -> ~ substring_of (PyStr.lower bw) (PyStr.lower t).
Proof.
  unfold Database.blocked_title. intros Hb bw Hbw Hsub.
  apply contains_spec in Hsub.
  assert (Hex : existsb (fun bw => PyStr.contains (PyStr.lower bw) (PyStr.lower t))
                  (elements (blocked_words d)) = true).
  { apply existsb_exists. exists bw. split; [|exact Hsub].
    apply list_elem_of_In, elem_of_elements, Hbw. }
  congruence.
Qed.

Lemma has_row_true (t : gmap Z Z) (i : Z) : Database.has_row t i = true <-> is_Some (t !! i).
Proof.
  unfold Database.has_row. destruct (t !! i); split; eauto; try discriminate.
  intros [? [=]].
Qed.

Lemma has_row_false (t : gmap Z Z) (i : Z) : Database.has_row t i = false <-> t !! i = None.
Proof. unfold Database.has_row. destruct (t !! i); split; congruence. Qed.

Section Pages.
Variables dismissed_only include_blocked include_read_later : bool.
Variable d : db.
Hypothesis stories_keyed : keyed_by_id d.

(** A selected row passes everything but the test for blocked words. *)
Lemma selected_row (sort : string) (ct ci : option Z) (sql_limit : Z) (r : listed) :
  r ∈ Database.select_scored dismissed_only include_blocked include_read_later
        sort ct ci sql_limit d ->
  Database.blocked_title d (title (row r)) = false \/ include_blocked = true ->
  listable dismissed_only include_blocked include_read_later d r.
Proof.
  intros Hin%elem_of_select_scored Hwords.
  apply list_elem_of_filter in Hin as [Hwhere Hscored].
  unfold Database.scored in Hscored.
  apply list_elem_of_fmap in Hscored as (s & -> & [k Hk]%elem_of_scan).
  unfold Database.where_clause in Hwhere. cbn [row is_dismissed is_read_later
    is_domain_blocked] in Hwhere.
  apply andb_true_iff in Hwhere as [[[Hdis Hdom]%andb_true_iff Hrl]%andb_true_iff _].
  unfold listable. cbn [row].
  pose proof (stories_keyed k s Hk) as Hid. cbn beta in Hid. subst k.
  split; [exact Hk|]. split; [|split].
  - destruct dismissed_only.
    + now apply has_row_true.
    + apply has_row_false. now apply negb_true_iff in Hdis.
  - intros ->. cbn [negb] in Hrl. apply has_row_false. now apply negb_true_iff in Hrl.
  - intros ->. cbn [negb] in Hdom. split.
    + intros dm Hdm. rewrite Hdm in Hdom.
      apply negb_true_iff, bool_decide_eq_false in Hdom. exact Hdom.
    + destruct Hwords as [Hwords|]; [|discriminate].
      now apply blocked_title_false.
Qed.

Lemma filter_rows_collected (limit : Z) (rows : list listed)
    (acc : list listed * gset string) :
  (forall r, r ∈ rows ->
     Database.blocked_title d (title (row r)) = false \/ include_blocked = true ->
     listable dismissed_only include_blocked include_read_later d r) ->
  collected dismissed_only include_blocked include_read_later d acc ->
  collected dismissed_only include_blocked include_read_later d
    (Database.filter_rows include_blocked limit d rows acc).
Proof.
  revert acc. induction rows as [|r rows IH]; intros acc Hrows Hacc;
    cbn [Database.filter_rows]; [exact Hacc|].
  assert (Hrest : forall r', r' ∈ rows ->
     Database.blocked_title d (title (row r')) = false \/ include_blocked = true ->
     listable dismissed_only include_blocked include_read_later d r').
  { intros r' Hr'. apply Hrows. now right. }
  destruct (negb include_blocked && Database.blocked_title d (title (row r))) eqn:Hblocked;
    [now apply IH|].
  destruct (bool_decide (Database.dedup_key (row r) ∈ acc.2)) eqn:Hseen; [now apply IH|].
  apply bool_decide_eq_false in Hseen.
  assert (Hnew : collected dismissed_only include_blocked include_read_later d
            (acc.1 ++ [r], {[Database.dedup_key (row r)]} ∪ acc.2)).
  { destruct Hacc as (Hnd & Hkeys & Hall). unfold collected. cbn [fst snd].
    split; [|split].
    - rewrite fmap_app. apply NoDup_app. split; [exact Hnd|]. split.
      + intros key (r0 & -> & Hr0)%list_elem_of_fmap Hin.
        apply list_elem_of_singleton in Hin. apply Hseen. rewrite <- Hin.
        now apply Hkeys.
      + cbn. apply NoDup_singleton.
    - intros r0 [Hr0| ->%list_elem_of_singleton]%elem_of_app.
      + apply elem_of_union_r. now apply Hkeys.
      + apply elem_of_union_l. now apply elem_of_singleton.
    - apply Forall_app. split; [exact Hall|]. apply Forall_singleton.
      apply Hrows; [now left|].
      apply andb_false_iff in Hblocked as [Hib|Hb]; [right|now left].
      now destruct include_blocked. }
  destruct (limit <=? Z.of_nat (length (acc.1 ++ [r]))); [exact Hnew|].
  now apply IH.
Qed.

Lemma fetch_batches_collected (fuel : nat) (limit : Z) (sort : string)
    (acc : list listed * gset string) (ct ci : option Z) (hm : bool)
    (stories_ : list listed) (hm' : bool) :
  Database.fetch_batches fuel dismissed_only include_blocked include_read_later
    limit sort d acc ct ci hm = Some (stories_, hm') ->
  collected dismissed_only include_blocked include_read_later d acc ->
  exists seen,
    collected dismissed_only include_blocked include_read_later d (stories_, seen).
Proof.
  revert acc ct ci hm. induction fuel as [|fuel IH]; intros acc ct ci hm;
    cbn [Database.fetch_batches];
    destruct ((Z.of_nat (length acc.1) <? limit) && hm); try discriminate;
    try (intros [= <- <-] Hacc; exists acc.2; now destruct acc).
  destruct (last _) as [last_row|].
  - intros Hrec Hacc. apply IH in Hrec; [assumption|].
    apply filter_rows_collected; [|assumption].
    intros r Hr Hw. eapply selected_row; eassumption.
  - intros [= <- <-] Hacc. exists acc.2. now destruct acc.
Qed.

Lemma slice_to_take {A} (n : Z) (l : list A) : exists m, Database.slice_to n l = take m l.
Proof. unfold Database.slice_to. destruct (0 <=? n); eauto. Qed.

Lemma get_stories_collected (fuel : nat) (limit : Z) (cursor_time cursor_id : option Z)
    (sort : string) (p : page) :
  Database.get_stories fuel dismissed_only include_blocked include_read_later
    limit cursor_time cursor_id sort d = Some (Ok p) ->
  NoDup ((fun r => Database.dedup_key (row r)) <$> page_stories p)
  /\ Forall (listable dismissed_only include_blocked include_read_later d)
       (page_stories p)
  /\ Z.of_nat (length (page_stories p)) <= Z.max 0 limit.
Proof.
  intros (stories_ & hm & Hloop & ->)%get_stories_Ok. cbn [page_stories].
  pose proof Hloop as Hlen%fetch_batches_length; [|now right].
  apply fetch_batches_collected in Hloop as [seen (Hnd & _ & Hall)].
  2:{ split; [constructor|]. split; [|constructor].
      intros r Hr. now apply elem_of_nil in Hr. }
  cbn [fst] in *. split; [|split].
  - destruct (slice_to_take limit stories_) as [m ->].
    rewrite fmap_take. exact (sublist_NoDup _ _ Hnd (sublist_take _ m)).
  - destruct (slice_to_take limit stories_) as [m ->].
    apply Forall_take. exact Hall.
  - unfold Database.slice_to. destruct (Z.leb_spec 0 limit).
    + rewrite length_take.
      transitivity (Z.of_nat (Z.to_nat limit)); [apply Nat2Z.inj_le, Nat.le_min_l|lia].
    + destruct Hlen as [Hlen| ->]; [lia|]. rewrite take_nil. cbn [length]. lia.
Qed.

End Pages.

(** X7. No url twice on a page: the stories of a page have pairwise
    different deduplication keys (the url, or [hn:<id>] without one); in
    particular no two of them share a non-empty url. *)
Theorem page_has_no_duplicate_url (fuel : nat)
    (dismissed_only include_blocked include_read_later : bool)
    (limit : Z) (cursor_time cursor_id : option Z) (sort : string) (d : db) (p : page) :
  keyed_by_id d ->
  Database.get_stories fuel dismissed_only include_blocked include_read_later
    limit cursor_time cursor_id sort d = Some (Ok p) ->
  NoDup ((fun r => Database.dedup_key (row r)) <$> page_stories p)
  /\ forall i j r1 r2 u,
       page_stories p !! i = Some r1 -> page_stories p !! j = Some r2 ->
       url (row r1) = Some u -> url (row r2) = Some u -> u <> "" ->
       i = j.
Proof.
  intros Hwf Hrun.
  destruct (get_stories_collected dismissed_only include_blocked include_read_later
              d Hwf fuel limit cursor_time cursor_id sort p Hrun) as (Hnd & _ & _).
  split; [exact Hnd|].
  intros i j r1 r2 u Hi Hj Hu1 Hu2 Hu.
  assert (Hkey : forall r, url (row r) = Some u -> Database.dedup_key (row r) = u).
  { intros r Hr. unfold Database.dedup_key, Database.truthy_opt. rewrite Hr.
    destruct u; [congruence|reflexivity]. }
  apply (NoDup_lookup _ i j u Hnd); rewrite list_lookup_fmap.
  - rewrite Hi. cbn. now rewrite (Hkey r1 Hu1).
  - rewrite Hj. cbn. now rewrite (Hkey r2 Hu2).
Qed.

(** X8. What a page may hold: every story of a page is a story of the
    store; it is dismissed exactly when only dismissed stories are asked
    for; it is not on read later unless those are included; and unless
    blocked stories are included, its domain is not blocked and no blocked
    word is a substring of its lower-cased title. *)
Theorem page_respects_filters (fuel : nat)
    (dismissed_only include_blocked include_read_later : bool)
    (limit : Z) (cursor_time cursor_id : option Z) (sort : string) (d : db) (p : page) :
  keyed_by_id d ->
  Database.get_stories fuel dismissed_only include_blocked include_read_later
    limit cursor_time cursor_id sort d = Some (Ok p) ->
  Forall (listable dismissed_only include_blocked include_read_later d) (page_stories p).
Proof.
  intros Hwf Hrun.
  now destruct (get_stories_collected dismissed_only include_blocked include_read_later
                  d Hwf fuel limit cursor_time cursor_id sort p Hrun) as (_ & Hall & _).
Qed.

(** X9. A page is never longer than asked for: it holds at most [limit]
    stories, and none when [limit] is zero or negative. *)
Theorem page_length_at_most_limit (fuel : nat)
    (dismissed_only include_blocked include_read_later : bool)
    (limit : Z) (cursor_time cursor_id : option Z) (sort : string) (d : db) (p : page) :
  Database.get_stories fuel dismissed_only include_blocked include_read_later
    limit cursor_time cursor_id sort d = Some (Ok p) ->
  Z.of_nat (length (page_stories p)) <= Z.max 0 limit.
Proof.
  intros (stories_ & hm & Hloop & ->)%get_stories_Ok. cbn [page_stories].
  apply fetch_batches_length in Hloop as Hlen; [|now right].
  unfold Database.slice_to. destruct (Z.leb_spec 0 limit).
  - rewrite length_take.
    transitivity (Z.of_nat (Z.to_nat limit)); [apply Nat2Z.inj_le, Nat.le_min_l|lia].
  - destruct Hlen as [Hlen| ->]; [lia|]. rewrite take_nil. cbn [length]. lia.
Qed.

Lemma listing_db_page :
  Database.get_stories 7 false false false 10 None None "newest" Sample.listing_db
  = Some (Ok (mkPage
                [ mkListed (Sample.titled 11 "Rust 2.0 released" "https://a.example/rust"
                              "a.example" 160) false false false false ]
                false None)).
Proof. vm_compute. reflexivity. Qed.

Lemma page_has_no_duplicate_url_example :
  keyed_by_id Sample.listing_db
  /\ exists p,
       Database.get_stories 7 false false false 10 None None "newest" Sample.listing_db
       = Some (Ok p)
       /\ NoDup ((fun r => Database.dedup_key (row r)) <$> page_stories p)
       /\ forall i j r1 r2 u,
            page_stories p !! i = Some r1 -> page_stories p !! j = Some r2 ->
            url (row r1) = Some u -> url (row r2) = Some u -> u <> "" ->
            i = j.
Proof.
  assert (Hwf : keyed_by_id Sample.listing_db).
  { unfold keyed_by_id. by_evaluation. }
  split; [exact Hwf|]. eexists. split; [exact listing_db_page|].
  exact (page_has_no_duplicate_url 7 false false false 10 None None "newest"
           Sample.listing_db _ Hwf listing_db_page).
Defined.

Lemma page_respects_filters_example :
  keyed_by_id Sample.listing_db
  /\ exists p,
       Database.get_stories 7 false false false 10 None None "newest" Sample.listing_db
       = Some (Ok p)
       /\ Forall (listable false false false Sample.listing_db) (page_stories p).
Proof.
  assert (Hwf : keyed_by_id Sample.listing_db).
  { unfold keyed_by_id. by_evaluation. }
  split; [exact Hwf|]. eexists. split; [exact listing_db_page|].
  exact (page_respects_filters 7 false false false 10 None None "newest"
           Sample.listing_db _ Hwf listing_db_page).
Defined.

Lemma page_length_at_most_limit_example :
  exists p,
    Database.get_stories 7 false false false 10 None None "newest" Sample.listing_db
    = Some (Ok p)
    /\ Z.of_nat (length (page_stories p)) <= Z.max 0 10.
Proof.
  eexists. split; [exact listing_db_page|].
  exact (page_length_at_most_limit 7 false false false 10 None None "newest"
           Sample.listing_db _ listing_db_page).
Defined.

Lemma get_stories_returns_example :
  ((forall k s, stories Sample.listing_db !! k = Some s -> time s <> None)
   /\ 2 * 3 <= 2 ^ 63 - 1
   /\ fits_int64 150 = true /\ fits_int64 12 = true)
  /\ is_Some (Database.get_stories (S (size (stories Sample.listing_db)))
                true true true 2 (Some 150) (Some 12) "oldest" Sample.listing_db)
  /\ exists p,
       Database.get_stories (S (size (stories Sample.listing_db)))
         true true true 2 (Some 150) (Some 12) "oldest" Sample.listing_db
       = Some (Ok p).
Proof.
  assert (Htimes : forall k s, stories Sample.listing_db !! k = Some s -> time s <> None).
  { change (map_Forall (fun (_ : Z) s => time s <> None) (stories Sample.listing_db)).
    by_evaluation. }
  split; [split; [exact Htimes|split; [lia|split; reflexivity]]|].
  destruct (get_stories_returns true true true "oldest" Sample.listing_db Htimes
              2 (Some 150) (Some 12)) as [Hends Hpage].
  split; [exact Hends|]. apply Hpage; [lia|].
  intros t i [= <-] [= <-]. split; reflexivity.
Defined.

Lemma update_content_sets_teaser_example :
  (stories Sample.queue_db !! 1
   = Some (Sample.link 1 "https://example.com/a" 100 Pending 0)
   /\ "  An article  " <> "")
  /\ exists s',
       stories (@Database.update_content sample_codec 1000 1 "  An article  " Done
                  (Some "cloudflare") 0%Q Sample.queue_db) !! 1 = Some s'
       /\ content s' = Some "  An article  "
       /\ teaser s' = Some (make_teaser (@decompress_content sample_codec "  An article  ")).
Proof.
  assert (Hs : stories Sample.queue_db !! 1
               = Some (Sample.link 1 "https://example.com/a" 100 Pending 0))
    by reflexivity.
  assert (Hc : "  An article  " <> "") by discriminate.
  split; [split; assumption|].
  exact (@update_content_sets_teaser sample_codec 1000 1 "  An article  " Done
           (Some "cloudflare") 0%Q Sample.queue_db _ Hs Hc).
Defined.

(** ** The size of a teaser *)

Lemma len_take (n : nat) (s : string) : (PyStr.len (PyStr.take n s) <= n)%nat.
Proof.
  unfold PyStr.len. revert s. induction n as [|n IH]; intros [|a s]; cbn; try lia.
  specialize (IH s). lia.
Qed.

Lemma len_lstrip (s : string) : (PyStr.len (PyStr.lstrip s) <= PyStr.len s)%nat.
Proof.
  unfold PyStr.len. induction s as [|a s IH]; cbn [PyStr.lstrip]; [lia|].
  destruct (PyStr.isspace a); cbn [String.length] in *; lia.
Qed.

Lemma len_rstrip (s : string) : (PyStr.len (PyStr.rstrip s) <= PyStr.len s)%nat.
Proof.
  unfold PyStr.len. induction s as [|a s IH]; cbn [PyStr.rstrip]; [lia|].
  destruct (PyStr.rstrip s) as [|b r]; [destruct (PyStr.isspace a)|];
    cbn [String.length] in *; lia.
Qed.

Lemma len_append (s t : string) : PyStr.len (s +:+ t) = (PyStr.len s + PyStr.len t)%nat.
Proof.
  unfold PyStr.len. induction s as [|a s IH]; [reflexivity|].
  change (S (String.length (s +:+ t)) = S (String.length s + String.length t)).
  now rewrite IH.
Qed.

Lemma lstrip_starts_unspaced (s : string) (a : ascii) (r : string) :
  PyStr.lstrip s = String a r -> PyStr.isspace a = false.
Proof.
  induction s as [|b s IH]; cbn [PyStr.lstrip]; [discriminate|].
  destruct (PyStr.isspace b) eqn:Hb; [exact IH|]. intros [= -> _]. exact Hb.
Qed.

(** X12. A teaser is short and trimmed at the front: [make_teaser] returns
    at most [TEASER_LENGTH] + 3 = 303 characters, at most 300 when the text
    has at most 300, and its first character, if any, is not white space
    unless it comes from the three dots. *)
Theorem teaser_is_short (text : string) :
  (PyStr.len (make_teaser text) <= 303)%nat
  /\ ((PyStr.len text <= 300)%nat -> (PyStr.len (make_teaser text) <= PyStr.len text)%nat)
  /\ forall a r, PyStr.strip (PyStr.take 300 text) = String a r ->
                 exists r', make_teaser text = String a r' /\ PyStr.isspace a = false.
Proof.
  unfold make_teaser, TEASER_LENGTH.
  assert (Hstrip : forall s, (PyStr.len (PyStr.strip s) <= PyStr.len s)%nat).
  { intros s. unfold PyStr.strip.
    pose proof (len_lstrip (PyStr.rstrip s)). pose proof (len_rstrip s). lia. }
  pose proof (Hstrip (PyStr.take 300 text)) as H1.
  pose proof (len_take 300 text) as H2.
  split; [|split].
  - destruct (300 <? PyStr.len text)%nat; [rewrite len_append|];
      change (PyStr.len "...") with 3%nat; lia.
  - intros Hshort. destruct (Nat.ltb_spec 300 (PyStr.len text)); [lia|].
    assert (Htake : forall n s, (PyStr.len s <= n)%nat -> PyStr.take n s = s).
    { unfold PyStr.len. induction n as [|n IH]; intros [|b s] Hl; cbn in *;
        try reflexivity; try lia. f_equal. apply IH. lia. }
    rewrite Htake by assumption. apply Hstrip.
  - intros a r Hs. rewrite Hs.
    unfold PyStr.strip in Hs. apply lstrip_starts_unspaced in Hs.
    destruct (300 <? PyStr.len text)%nat; eexists; (split; [reflexivity|exact Hs]).
Qed.

Lemma teaser_is_short_example :
  ((PyStr.len "  Hello, world  " <= 300)%nat
   /\ PyStr.strip (PyStr.take 300 "  Hello, world  ") = "Hello, world")
  /\ (PyStr.len (make_teaser "  Hello, world  ") <= PyStr.len "  Hello, world  ")%nat
  /\ exists r', make_teaser "  Hello, world  " = String "H" r'
                /\ PyStr.isspace "H" = false.
Proof.
  assert (H1 : (PyStr.len "  Hello, world  " <= 300)%nat) by (vm_compute; lia).
  assert (H2 : PyStr.strip (PyStr.take 300 "  Hello, world  ") = "Hello, world")
    by reflexivity.
  split; [split; assumption|].
  destruct (teaser_is_short "  Hello, world  ") as (_ & Hshort & Hfirst).
  split; [exact (Hshort H1)|exact (Hfirst _ _ H2)].
Defined.

(** ** Front page tracking *)

Lemma front_page_no_worse_refl (s : story) : front_page_no_worse s s.
Proof. split; [auto|]. split; [|reflexivity]. intros r Hr. exists r. split; [assumption|lia]. Qed.

Lemma front_page_no_worse_trans (s1 s2 s3 : story) :
  front_page_no_worse s1 s2 -> front_page_no_worse s2 s3 -> front_page_no_worse s1 s3.
Proof.
  intros (Hh1 & Hr1 & Hc1) (Hh2 & Hr2 & Hc2). split; [auto|]. split.
  - intros r Hr. destruct (Hr1 r Hr) as (r' & Hr' & Hle).
    destruct (Hr2 r' Hr') as (r'' & Hr'' & Hle'). exists r''. split; [assumption|lia].
  - congruence.
Qed.

Lemma front_page_mark_no_worse (now rank : Z) (s : story) :
  front_page_no_worse s (Database.front_page_mark now rank s).
Proof.
  split; [intros _; cbn; discriminate|]. split; [|reflexivity].
  intros r Hr. cbn. rewrite Hr. eexists. split; [reflexivity|].
  destruct (Z.ltb_spec rank r); lia.
Qed.




Lemma front_page_loop_rows (now : Z) (ids : list Z) (rank updated : Z) (d : db) :
  let d' := (Database.front_page_loop now rank ids updated d).2 in
  (forall k, match stories d !! k with
             | Some s => exists s', stories d' !! k = Some s'
                                    /\ front_page_no_worse s s'
                                    /\ (k ∉ ids -> s' = s)
             | None => stories d' !! k = None
             end)
  /\ same_side_tables d d'.
Proof.
  cbv zeta. revert rank updated d.
  induction ids as [|i ids IH]; intros rank updated d; cbn [Database.front_page_loop].
  - split; [|repeat split]. intros k. destruct (stories d !! k) as [s|] eqn:Hk; [|exact Hk].
    exists s. split; [exact Hk|]. split; [apply front_page_no_worse_refl|reflexivity].
  - assert (Hskip : forall u,
      (forall k, match stories d !! k with
                 | Some s => exists s',
                     stories (Database.front_page_loop now (rank + 1) ids u d).2 !! k
                     = Some s'
                     /\ front_page_no_worse s s' /\ (k ∉ i :: ids -> s' = s)
                 | None =>
                     stories (Database.front_page_loop now (rank + 1) ids u d).2 !! k
                     = None
                 end)
      /\ same_side_tables d (Database.front_page_loop now (rank + 1) ids u d).2).
    { intros u. destruct (IH (rank + 1) u d) as [Hrows Hside]. split; [|exact Hside].
      intros k. specialize (Hrows k). destruct (stories d !! k) as [s|]; [|exact Hrows].
      destruct Hrows as (s' & Hs' & Hw & Hout). exists s'. split; [assumption|].
      split; [assumption|]. intros Hk. apply Hout. intros Hin. apply Hk. now right. }
    destruct (stories d !! i) as [si|] eqn:Hi; [|apply Hskip].
    destruct (Database.front_page_stale rank si); [|apply Hskip].
    destruct (IH (rank + 1) (updated + 1)
                (update_story i (Database.front_page_mark now rank) d))
      as [Hrows Hside].
    split; [|exact Hside].
    intros k. specialize (Hrows k). rewrite update_story_lookup_at in Hrows.
    destruct (decide (i = k)) as [<-|Hne].
    + rewrite Hi in *. cbn [fmap option_fmap option_map] in Hrows.
      destruct Hrows as (s' & Hs' & Hw & _). exists s'. split; [assumption|].
      split; [eapply front_page_no_worse_trans; [apply front_page_mark_no_worse|exact Hw]|].
      intros Hout. exfalso. apply Hout. now left.
    + destruct (stories d !! k) as [s|]; [|exact Hrows].
      destruct Hrows as (s' & Hs' & Hw & Hout). exists s'. split; [assumption|].
      split; [assumption|]. intros Hk. apply Hout. intros Hin. apply Hk. now right.
Qed.



(** X13. The front-page pass never takes back what it recorded: every story
    is still there afterwards with its front-page flag still set if it was,
    its best rank the same or smaller, and every other column but
    [updated_at] unchanged; a story whose id is not among the first 30 of
    the list is not touched at all, no story is created, and no other table
    changes. *)
Theorem front_page_pass_only_improves (now : Z) (top_story_ids : list Z) (d : db) :
  let d' := (Database.update_front_page_stories now top_story_ids d).2 in
  (forall k, match stories d !! k with
             | Some s => exists s', stories d' !! k = Some s'
                                    /\ front_page_no_worse s s'
                                    /\ (k ∉ take 30 top_story_ids -> s' = s)
             | None => stories d' !! k = None
             end)
  /\ same_side_tables d d'.
Proof.
  cbv zeta. unfold Database.update_front_page_stories.
  destruct top_story_ids as [|i ids].
  - exact (front_page_loop_rows now [] 1 0 d).
  - apply front_page_loop_rows.
Qed.




(** ** The sync checkpoint *)




Section Checkpoint.
Context {C : Codec}.




End Checkpoint.


(** ** Blocking, dismissing and reading later, seen from the listing *)

Lemma lower_idem (s : string) : PyStr.lower (PyStr.lower s) = PyStr.lower s.
Proof. induction s as [|a s IH]; simpl; [reflexivity|]. now rewrite lower_char_idem, IH. Qed.

(** X17. A blocked word takes effect on the next listing: after
    [add_blocked_word word], no page fetched without [include_blocked] holds
    a story whose lower-cased title contains the lower-cased word. *)
Theorem blocked_word_hides_titles (fuel : nat) (dismissed_only include_read_later : bool)
    (limit : Z) (cursor_time cursor_id : option Z) (sort : string)
    (word : string) (d : db) (p : page) :
  keyed_by_id d ->
  Database.get_stories fuel dismissed_only false include_read_later
    limit cursor_time cursor_id sort (Database.add_blocked_word word d) = Some (Ok p) ->
  Forall (fun r => ~ substring_of (PyStr.lower word) (PyStr.lower (title (row r))))
    (page_stories p).
Proof.
  intros Hwf Hrun.
  destruct (get_stories_collected dismissed_only false include_read_later
              (Database.add_blocked_word word d) Hwf fuel limit cursor_time cursor_id
              sort p Hrun) as (_ & Hall & _).
  eapply Forall_impl; [exact Hall|]. intros r (_ & _ & _ & Hb).
  pose proof (proj2 (Hb eq_refl) (PyStr.lower word)) as Hw.
  rewrite lower_idem in Hw. apply Hw. cbn. apply elem_of_union_l, elem_of_singleton.
  reflexivity.
Qed.

(** X18. A blocked domain takes effect on the next listing: after
    [add_blocked_domain dm], no page fetched without [include_blocked] holds
    a story of domain [dm]. *)
Theorem blocked_domain_hides_stories (fuel : nat)
    (dismissed_only include_read_later : bool)
    (limit : Z) (cursor_time cursor_id : option Z) (sort : string)
    (dm : string) (d : db) (p : page) :
  keyed_by_id d ->
  Database.get_stories fuel dismissed_only false include_read_later
    limit cursor_time cursor_id sort (Database.add_blocked_domain dm d) = Some (Ok p) ->
  Forall (fun r => domain (row r) <> Some dm) (page_stories p).
Proof.
  intros Hwf Hrun.
  destruct (get_stories_collected dismissed_only false include_read_later
              (Database.add_blocked_domain dm d) Hwf fuel limit cursor_time cursor_id
              sort p Hrun) as (_ & Hall & _).
  eapply Forall_impl; [exact Hall|]. intros r (_ & _ & _ & Hb) Hdm.
  apply (proj1 (Hb eq_refl) dm Hdm). cbn. apply elem_of_union_l, elem_of_singleton.
  reflexivity.
Qed.

(** X19. Blocked words are kept in lower case, so adding and removing ignore
    letter case: a word added twice in different case is stored once, and
    removing it in any case undoes the addition of a word that was not
    blocked before. *)
Theorem blocked_word_ignores_case (w w' : string) (d : db) :
  PyStr.lower w = PyStr.lower w' ->
  Database.add_blocked_word w' (Database.add_blocked_word w d)
  = Database.add_blocked_word w d
  /\ (PyStr.lower w ∉ blocked_words d ->
      Database.remove_blocked_word w' (Database.add_blocked_word w d) = d).
Proof.
  intros Hcase.
  unfold Database.add_blocked_word, Database.remove_blocked_word,
    Database.with_blocked_words.
  rewrite <- Hcase. destruct d as [st fu ul bd bw rl di hi]. cbn. split.
  - f_equal. apply set_eq. intros y. rewrite !elem_of_union. tauto.
  - intros Hnew. f_equal. apply set_eq. intros y.
    rewrite elem_of_difference, elem_of_union, elem_of_singleton.
    split; [intros [[->|Hy] Hne]; [now contradict Hne|exact Hy]|].
    intros Hy. split; [now right|]. now intros ->.
Qed.

(** X20. Dismissing hides a story and can be undone: after [dismiss_story]
    the story is on no page of the listing of stories not dismissed; and
    [undismiss_story] then gives back the store as it was, when the story
    was not dismissed before. *)
Theorem dismissed_story_leaves_listing (now story_id : Z) (d d' : db) :
  keyed_by_id d ->
  Database.dismiss_story now story_id d = Ok d' ->
  (forall fuel include_blocked include_read_later limit cursor_time cursor_id sort p,
     Database.get_stories fuel false include_blocked include_read_later
       limit cursor_time cursor_id sort d' = Some (Ok p) ->
     Forall (fun r => id (row r) <> story_id) (page_stories p))
  /\ (dismissed d !! story_id = None -> Database.undismiss_story story_id d' = d).
Proof.
  intros Hwf Hok.
  assert (Hfit : fits_int64 story_id = true).
  { unfold Database.dismiss_story in Hok.
    now destruct (fits_int64 story_id). }
  destruct (dismiss_story_Ok now story_id d Hfit) as (d'' & Hok' & Hin & _ & Hst).
  assert (d'' = d') as -> by congruence. split.
  - intros fuel ib irl limit ct ci sort p Hrun.
    assert (Hwf' : keyed_by_id d') by (unfold keyed_by_id; now rewrite Hst).
    destruct (get_stories_collected false ib irl d' Hwf' fuel limit ct ci sort p Hrun)
      as (_ & Hall & _).
    eapply Forall_impl; [exact Hall|]. intros r (_ & Hd & _) Hid.
    rewrite Hid in Hd. rewrite Hd in Hin. now destruct Hin.
  - intros Hnew. unfold Database.dismiss_story in Hok. rewrite Hfit, Hnew in Hok.
    injection Hok as <-. unfold Database.undismiss_story.
    unfold with_dismissed. destruct d as [st fu ul bd bw rl di hi]. cbn in *. f_equal.
    now apply delete_insert_id.
Qed.

(** X21. Saving for later: when [add_read_later] succeeds, every read-later
    row still references a story, the story is on no page fetched without
    [include_read_later], and [remove_read_later] gives back the store as it
    was when the story was not saved before. *)
Theorem read_later_story_leaves_listing (now story_id : Z) (d d' : db) :
  keyed_by_id d ->
  read_later_references_stories d ->
  Database.add_read_later now story_id d = Ok d' ->
  read_later_references_stories d'
  /\ (forall fuel dismissed_only include_blocked limit cursor_time cursor_id sort p,
        Database.get_stories fuel dismissed_only include_blocked false
          limit cursor_time cursor_id sort d' = Some (Ok p) ->
        Forall (fun r => id (row r) <> story_id) (page_stories p))
  /\ (read_later d !! story_id = None -> Database.remove_read_later story_id d' = d).
Proof.
  intros Hwf Hfk Hok. unfold Database.add_read_later in Hok.
  destruct (fits_int64 story_id); [cbn [negb] in Hok|discriminate].
  assert (Hst : stories d' = stories d /\ is_Some (read_later d' !! story_id)
                /\ read_later_references_stories d').
  { destruct (read_later d !! story_id) as [t|] eqn:Hr.
    - injection Hok as <-. rewrite Hr. eauto.
    - destruct (stories d !! story_id) as [s|] eqn:Hs; [|discriminate].
      injection Hok as <-. cbn. rewrite lookup_insert_eq.
      split; [reflexivity|]. split; [eauto|].
      unfold read_later_references_stories. cbn.
      apply map_Forall_insert_2; [rewrite Hs; eauto|exact Hfk]. }
  destruct Hst as (Hst & Hin & Hfk'). split; [exact Hfk'|]. split.
  - intros fuel dis ib limit ct ci sort p Hrun.
    assert (Hwf' : keyed_by_id d') by (unfold keyed_by_id; now rewrite Hst).
    destruct (get_stories_collected dis ib false d' Hwf' fuel limit ct ci sort p Hrun)
      as (_ & Hall & _).
    eapply Forall_impl; [exact Hall|]. intros r (_ & _ & Hrl & _) Hid.
    specialize (Hrl eq_refl). rewrite Hid in Hrl. rewrite Hrl in Hin. now destruct Hin.
  - intros Hnew. rewrite Hnew in Hok.
    destruct (stories d !! story_id) as [s|]; [|discriminate].
    injection Hok as <-. unfold Database.remove_read_later.
    unfold with_read_later. destruct d as [st fu ul bd bw rl di hi]. cbn in *. f_equal.
    now apply delete_insert_id.
Qed.

Lemma blocked_word_hides_titles_example :
  keyed_by_id Sample.listing_db
  /\ exists p,
       Database.get_stories 7 false false true 10 None None "newest"
         (Database.add_blocked_word "RUST" Sample.listing_db) = Some (Ok p)
       /\ Forall (fun r => ~ substring_of (PyStr.lower "RUST")
                             (PyStr.lower (title (row r))))
            (page_stories p).
Proof.
  assert (Hwf : keyed_by_id Sample.listing_db).
  { unfold keyed_by_id. by_evaluation. }
  split; [exact Hwf|]. eexists. split; [vm_compute; reflexivity|].
  refine (blocked_word_hides_titles 7 false true 10 None None "newest" "RUST"
            Sample.listing_db _ Hwf _).
  vm_compute. reflexivity.
Defined.

Lemma blocked_domain_hides_stories_example :
  keyed_by_id Sample.listing_db
  /\ exists p,
       Database.get_stories 7 false false true 10 None None "newest"
         (Database.add_blocked_domain "a.example" Sample.listing_db) = Some (Ok p)
       /\ Forall (fun r => domain (row r) <> Some "a.example") (page_stories p).
Proof.
  assert (Hwf : keyed_by_id Sample.listing_db).
  { unfold keyed_by_id. by_evaluation. }
  split; [exact Hwf|]. eexists. split; [vm_compute; reflexivity|].
  refine (blocked_domain_hides_stories 7 false true 10 None None "newest" "a.example"
            Sample.listing_db _ Hwf _).
  vm_compute. reflexivity.
Defined.

Lemma blocked_word_ignores_case_example :
  (PyStr.lower "Crypto" = PyStr.lower "CRYPTO"
   /\ PyStr.lower "Crypto" ∉ blocked_words Sample.queue_db)
  /\ Database.add_blocked_word "CRYPTO" (Database.add_blocked_word "Crypto" Sample.queue_db)
     = Database.add_blocked_word "Crypto" Sample.queue_db
  /\ Database.remove_blocked_word "CRYPTO"
       (Database.add_blocked_word "Crypto" Sample.queue_db)
     = Sample.queue_db.
Proof.
  assert (Hcase : PyStr.lower "Crypto" = PyStr.lower "CRYPTO") by reflexivity.
  assert (Hnew : PyStr.lower "Crypto" ∉ blocked_words Sample.queue_db)
    by apply not_elem_of_empty.
  split; [split; assumption|].
  destruct (blocked_word_ignores_case "Crypto" "CRYPTO" Sample.queue_db Hcase)
    as [Htwice Hback].
  split; [exact Htwice|exact (Hback Hnew)].
Defined.

Lemma dismissed_story_leaves_listing_example :
  (keyed_by_id Sample.listing_db
   /\ Database.dismiss_story 2000 11 Sample.listing_db
      = Ok (with_dismissed (<[11 := 2000]> (dismissed Sample.listing_db))
              Sample.listing_db)
   /\ dismissed Sample.listing_db !! 11 = None)
  /\ (forall fuel include_blocked include_read_later limit cursor_time cursor_id sort p,
        Database.get_stories fuel false include_blocked include_read_later
          limit cursor_time cursor_id sort
          (with_dismissed (<[11 := 2000]> (dismissed Sample.listing_db))
             Sample.listing_db) = Some (Ok p) ->
        Forall (fun r => id (row r) <> 11) (page_stories p))
  /\ Database.undismiss_story 11
       (with_dismissed (<[11 := 2000]> (dismissed Sample.listing_db)) Sample.listing_db)
     = Sample.listing_db.
Proof.
  assert (Hwf : keyed_by_id Sample.listing_db).
  { unfold keyed_by_id. by_evaluation. }
  assert (Hok : Database.dismiss_story 2000 11 Sample.listing_db
                = Ok (with_dismissed (<[11 := 2000]> (dismissed Sample.listing_db))
                        Sample.listing_db)) by reflexivity.
  assert (Hnew : dismissed Sample.listing_db !! 11 = None) by reflexivity.
  split; [repeat split; assumption|].
  destruct (dismissed_story_leaves_listing 2000 11 Sample.listing_db _ Hwf Hok)
    as [Hhide Hback].
  split; [exact Hhide|exact (Hback Hnew)].
Defined.

Lemma read_later_story_leaves_listing_example :
  (keyed_by_id Sample.listing_db
   /\ read_later_references_stories Sample.listing_db
   /\ Database.add_read_later 2000 11 Sample.listing_db
      = Ok (with_read_later (<[11 := 2000]> (read_later Sample.listing_db))
              Sample.listing_db)
   /\ read_later Sample.listing_db !! 11 = None)
  /\ read_later_references_stories
       (with_read_later (<[11 := 2000]> (read_later Sample.listing_db)) Sample.listing_db)
  /\ (forall fuel dismissed_only include_blocked limit cursor_time cursor_id sort p,
        Database.get_stories fuel dismissed_only include_blocked false
          limit cursor_time cursor_id sort
          (with_read_later (<[11 := 2000]> (read_later Sample.listing_db))
             Sample.listing_db) = Some (Ok p) ->
        Forall (fun r => id (row r) <> 11) (page_stories p))
  /\ Database.remove_read_later 11
       (with_read_later (<[11 := 2000]> (read_later Sample.listing_db)) Sample.listing_db)
     = Sample.listing_db.
Proof.
  assert (Hwf : keyed_by_id Sample.listing_db).
  { unfold keyed_by_id. by_evaluation. }
  assert (Hfk : read_later_references_stories Sample.listing_db).
  { unfold read_later_references_stories. by_evaluation. }
  assert (Hok : Database.add_read_later 2000 11 Sample.listing_db
                = Ok (with_read_later (<[11 := 2000]> (read_later Sample.listing_db))
                        Sample.listing_db)) by reflexivity.
  assert (Hnew : read_later Sample.listing_db !! 11 = None) by reflexivity.
  split; [repeat split; assumption|].
  destruct (read_later_story_leaves_listing 2000 11 Sample.listing_db _ Hwf Hfk Hok)
    as (Hfk' & Hhide & Hback).
  split; [exact Hfk'|]. split; [exact Hhide|exact (Hback Hnew)].
Defined.

(** ** What the cleanup deletes *)

Lemma delete_ids_nil {A} (t : gmap Z A) : Database.delete_ids [] t = t.
Proof. apply map_filter_id. intros i x _. apply not_elem_of_nil. Qed.

Lemma delete_ids_lookup {A} (ids : list Z) (t : gmap Z A) (i : Z) :
  i ∉ ids -> Database.delete_ids ids t !! i = t !! i.
Proof.
  intros Hi. unfold Database.delete_ids. destruct (t !! i) as [x|] eqn:Hx.
  - now apply map_lookup_filter_Some_2.
  - apply map_lookup_filter_None_2. now left.
Qed.

Lemma cleanup_stories_shape (now dismissed_hours max_age_days content_cache_days : Z)
    (d : db) :
  exists dis old : list Z,
    dis = id <$> filter (fun s => Database.created_before (now - dismissed_hours * 3600)
                                    (dismissed d) (id s) = true) (Database.scan d)
    /\ old = id <$> filter (fun s => sql_lt (time s) (Some (now - max_age_days * 24 * 3600))
                                     && negb (Database.has_row (read_later d) (id s))
                                     && negb (Database.has_row (dismissed d) (id s))
                                     = true) (Database.scan d)
    /\ (Database.cleanup_stories now dismissed_hours max_age_days content_cache_days d).1
       = (Z.of_nat (length dis), Z.of_nat (length old))
    /\ stories (Database.cleanup_stories now dismissed_hours max_age_days
                  content_cache_days d).2
       = Database.delete_ids (dis ++ old) (stories d)
    /\ read_later (Database.cleanup_stories now dismissed_hours max_age_days
                     content_cache_days d).2
       = Database.delete_ids (dis ++ old) (read_later d)
    /\ history (Database.cleanup_stories now dismissed_hours max_age_days
                  content_cache_days d).2
       = Database.delete_ids (dis ++ old) (history d)
    /\ fetched_urls (Database.cleanup_stories now dismissed_hours max_age_days
                       content_cache_days d).2
       = filter (fun kv => (fetched_at kv.2 <? now - content_cache_days * 24 * 3600)
                           = false) (fetched_urls d).
Proof.
  unfold Database.cleanup_stories. cbv zeta. cbn [fst snd].
  set (dis := id <$> filter _ (Database.scan d)).
  set (old := id <$> filter _ (Database.scan d)).
  exists dis, old. split; [reflexivity|]. split; [reflexivity|]. split; [reflexivity|].
  destruct (dis ++ old) as [|x l]; cbn.
  - rewrite !delete_ids_nil. repeat split.
  - repeat split.
Qed.

Lemma elem_of_selected_ids (P : story -> Prop) `{!forall s, Decision (P s)}
    (d : db) (k : Z) :
  keyed_by_id d ->
  k ∈ id <$> filter P (Database.scan d) <-> exists s, stories d !! k = Some s /\ P s.
Proof.
  intros Hwf. rewrite list_elem_of_fmap. split.
  - intros (s & -> & [Hp (k' & Hk')%elem_of_scan]%list_elem_of_filter).
    exists s. split; [|exact Hp]. now rewrite (Hwf k' s Hk').
  - intros (s & Hk & Hp). exists s. split; [symmetry; exact (Hwf k s Hk)|].
    apply list_elem_of_filter. split; [exact Hp|]. apply elem_of_scan. eauto.
Qed.

Lemma spared_spec (now dismissed_hours max_age_days : Z) (d : db) (s : story) :
  spared now dismissed_hours max_age_days d s
  <-> Database.created_before (now - dismissed_hours * 3600) (dismissed d) (id s) = false
      /\ sql_lt (time s) (Some (now - max_age_days * 24 * 3600))
         && negb (Database.has_row (read_later d) (id s))
         && negb (Database.has_row (dismissed d) (id s)) = false.
Proof.
  unfold spared, Database.created_before, Database.has_row, sql_lt.
  split; intros [H1 H2]; split.
  - destruct (dismissed d !! id s) as [a|]; [|reflexivity].
    apply Z.ltb_ge, H1. reflexivity.
  - destruct H2 as [[b Hr]|[[a Hd]|Ht]].
    + rewrite Hr. cbn [negb]. now rewrite andb_false_r.
    + rewrite Hd. cbn [negb]. now rewrite andb_false_r.
    + destruct (time s) as [t|]; [|reflexivity].
      now rewrite (proj2 (Z.ltb_ge _ _) (Ht t eq_refl)).
  - intros a Ha. rewrite Ha in H1. now apply Z.ltb_ge.
  - destruct (read_later d !! id s) as [b|]; [left; eauto|].
    destruct (dismissed d !! id s) as [a|]; [right; left; eauto|].
    right. right. intros t Ht. rewrite Ht in H2. cbn [negb] in H2.
    rewrite !andb_true_r in H2. now apply Z.ltb_ge.
Qed.

Lemma doomed_ids (now dismissed_hours max_age_days : Z) (d : db) (k : Z) :
  keyed_by_id d ->
  k ∈ (id <$> filter (fun s => Database.created_before (now - dismissed_hours * 3600)
                                 (dismissed d) (id s) = true) (Database.scan d))
      ++ (id <$> filter (fun s => sql_lt (time s) (Some (now - max_age_days * 24 * 3600))
                                  && negb (Database.has_row (read_later d) (id s))
                                  && negb (Database.has_row (dismissed d) (id s))
                                  = true) (Database.scan d))
  <-> exists s, stories d !! k = Some s /\ ~ spared now dismissed_hours max_age_days d s.
Proof.
  intros Hwf. rewrite elem_of_app, !elem_of_selected_ids by exact Hwf. split.
  - intros [(s & Hk & Hp)|(s & Hk & Hp)]; exists s; (split; [exact Hk|]);
      intros [H1 H2]%spared_spec; congruence.
  - intros (s & Hk & Hsp).
    destruct (Database.created_before (now - dismissed_hours * 3600) (dismissed d) (id s))
      eqn:H1; [left; eauto|].
    destruct (sql_lt (time s) (Some (now - max_age_days * 24 * 3600))
              && negb (Database.has_row (read_later d) (id s))
              && negb (Database.has_row (dismissed d) (id s))) eqn:H2; [right; eauto|].
    exfalso. apply Hsp, spared_spec. now split.
Qed.

(** X22. What the cleanup deletes: a story is in the store after
    [cleanup_stories] exactly when it was there before, unchanged, and is
    spared: its dismissal, if any, is within [dismissed_hours], and it is on
    read later, or dismissed, or no older than [max_age_days]. *)
Theorem cleanup_deletes_exactly_the_expired
    (now dismissed_hours max_age_days content_cache_days : Z) (d : db)
    (k : Z) (s : story) :
  keyed_by_id d ->
  stories (Database.cleanup_stories now dismissed_hours max_age_days
             content_cache_days d).2 !! k = Some s
  <-> stories d !! k = Some s /\ spared now dismissed_hours max_age_days d s.
Proof.
  intros Hwf.
  destruct (cleanup_stories_shape now dismissed_hours max_age_days content_cache_days d)
    as (dis & old & -> & -> & _ & -> & _).
  unfold Database.delete_ids. rewrite map_lookup_filter_Some. cbn [fst].
  rewrite (doomed_ids now dismissed_hours max_age_days d k Hwf). split.
  - intros [Hk Hni]. split; [exact Hk|].
    destruct (proj1 (spared_spec now dismissed_hours max_age_days d s)) as [H1 H2];
      [|now apply spared_spec].
    destruct (Database.created_before (now - dismissed_hours * 3600) (dismissed d) (id s))
      eqn:H1.
    { exfalso. apply Hni. exists s. split; [exact Hk|].
      intros [H1' _]%spared_spec. congruence. }
    destruct (sql_lt (time s) (Some (now - max_age_days * 24 * 3600))
              && negb (Database.has_row (read_later d) (id s))
              && negb (Database.has_row (dismissed d) (id s))) eqn:H2.
    { exfalso. apply Hni. exists s. split; [exact Hk|].
      intros [_ H2']%spared_spec. congruence. }
    apply spared_spec. now split.
  - intros [Hk Hsp]. split; [exact Hk|]. intros (s' & Hk' & Hn).
    apply Hn. congruence.
Qed.

(** X23. The cleanup keeps the references intact: if every read-later row
    referenced a story before, so it does after; a story that goes takes its
    read-later and history rows with it; a story that stays keeps them. *)
Theorem cleanup_keeps_references
    (now dismissed_hours max_age_days content_cache_days : Z) (d : db) :
  let d' := (Database.cleanup_stories now dismissed_hours max_age_days
               content_cache_days d).2 in
  (read_later_references_stories d -> read_later_references_stories d')
  /\ (forall k, is_Some (stories d !! k) -> stories d' !! k = None ->
        read_later d' !! k = None /\ history d' !! k = None)
  /\ (forall k, is_Some (stories d' !! k) ->
        read_later d' !! k = read_later d !! k /\ history d' !! k = history d !! k).
Proof.
  cbv zeta.
  destruct (cleanup_stories_shape now dismissed_hours max_age_days content_cache_days d)
    as (dis & old & _ & _ & _ & Hst & Hrl & Hhi & _).
  unfold read_later_references_stories. rewrite Hst, Hrl, Hhi.
  split; [|split].
  - intros Hfk k v [Hk Hni]%map_lookup_filter_Some. cbn [fst] in Hni.
    destruct (Hfk k v Hk) as [s Hs]. exists s.
    now rewrite delete_ids_lookup.
  - intros k [s Hs] Hgone.
    destruct (decide (k ∈ dis ++ old)) as [Hin|Hni].
    + split; now apply delete_ids_lookup_None.
    + rewrite delete_ids_lookup in Hgone by exact Hni. congruence.
  - intros k [s [_ Hni]%map_lookup_filter_Some]. cbn [fst] in Hni.
    split; now apply delete_ids_lookup.
Qed.

Lemma map_to_list_filter_perm {A} (P : Z * A -> Prop) `{!forall x, Decision (P x)}
    (m : gmap Z A) :
  map_to_list (filter P m) ≡ₚ filter P (map_to_list m).
Proof.
  apply NoDup_Permutation.
  - apply NoDup_map_to_list.
  - apply NoDup_filter, NoDup_map_to_list.
  - intros [k x].
    rewrite elem_of_map_to_list, map_lookup_filter_Some, list_elem_of_filter,
      elem_of_map_to_list.
    tauto.
Qed.

Lemma length_selected (P : story -> Prop) `{!forall s, Decision (P s)}
    (l : list (Z * story)) :
  length (id <$> filter P (l.*2)) = length (filter (fun kv => P kv.2) l).
Proof.
  rewrite length_fmap. induction l as [|kv l IH]; [reflexivity|].
  cbn [fmap list_fmap]. rewrite !filter_cons.
  destruct (decide (P kv.2)); cbn [length]; now rewrite IH.
Qed.

Lemma length_filter_three {A} (Q P1 P2 : A -> Prop)
    `{!forall x, Decision (Q x), !forall x, Decision (P1 x), !forall x, Decision (P2 x)}
    (l : list A) :
  (forall x, x ∈ l -> Q x <-> ~ (P1 x \/ P2 x)) ->
  (forall x, P1 x -> P2 x -> False) ->
  (length (filter Q l) + length (filter P1 l) + length (filter P2 l) = length l)%nat.
Proof.
  intros HQ Hex. induction l as [|x l IH]; [reflexivity|].
  assert (IH' := IH (fun y Hy => HQ y (list_elem_of_further _ _ _ Hy))).
  pose proof (HQ x (list_elem_of_here _ _)) as Hx. specialize (Hex x).
  rewrite !filter_cons.
  destruct (decide (Q x)), (decide (P1 x)), (decide (P2 x)); cbn [length];
    try lia; tauto.
Qed.

(** X24. The counts of the cleanup are the stories it deleted: the two
    numbers [cleanup_stories] returns are not negative and add up to the
    number of stories before minus the number after. *)
Theorem cleanup_counts_the_deleted
    (now dismissed_hours max_age_days content_cache_days : Z) (d : db) :
  keyed_by_id d ->
  let r := Database.cleanup_stories now dismissed_hours max_age_days
             content_cache_days d in
  0 <= r.1.1 /\ 0 <= r.1.2
  /\ r.1.1 + r.1.2 = Z.of_nat (size (stories d)) - Z.of_nat (size (stories r.2)).
Proof.
  intros Hwf. cbv zeta.
  destruct (cleanup_stories_shape now dismissed_hours max_age_days content_cache_days d)
    as (dis & old & Hdis & Hold & -> & -> & _).
  cbn [fst snd]. split; [lia|]. split; [lia|].
  unfold Database.delete_ids.
  rewrite <- !length_map_to_list, (map_to_list_filter_perm _ (stories d)).
  rewrite <- (merge_sort_Permutation Database.key_order (map_to_list (stories d))).
  set (rows := merge_sort Database.key_order (map_to_list (stories d))).
  pose proof (length_filter_three
                (fun kv : Z * story => kv.1 ∉ dis ++ old)
                (fun kv => Database.created_before (now - dismissed_hours * 3600)
                             (dismissed d) (id kv.2) = true)
                (fun kv => sql_lt (time kv.2) (Some (now - max_age_days * 24 * 3600))
                           && negb (Database.has_row (read_later d) (id kv.2))
                           && negb (Database.has_row (dismissed d) (id kv.2)) = true)
                rows) as Hsum.
  pose proof (length_selected
                (fun s => Database.created_before (now - dismissed_hours * 3600)
                            (dismissed d) (id s) = true)
                rows) as Hl1.
  pose proof (length_selected
                (fun s => sql_lt (time s) (Some (now - max_age_days * 24 * 3600))
                          && negb (Database.has_row (read_later d) (id s))
                          && negb (Database.has_row (dismissed d) (id s)) = true)
                rows) as Hl2.
  change (rows.*2) with (Database.scan d) in Hl1, Hl2.
  rewrite <- Hdis in Hl1. rewrite <- Hold in Hl2.
  cbn beta in Hl1, Hl2. rewrite <- Hl1, <- Hl2 in Hsum.
  enough (length (filter (fun kv : Z * story => kv.1 ∉ dis ++ old) rows)
          + length dis + length old = length rows)%nat by lia.
  apply Hsum.
  - intros [k s] Hk. unfold rows in Hk. rewrite merge_sort_Permutation in Hk.
    apply elem_of_map_to_list in Hk. cbn [fst snd].
    rewrite Hdis, Hold, elem_of_app, !elem_of_selected_ids by exact Hwf. split.
    + intros Hni [H1|H2]; apply Hni; [left|right]; eauto.
    + intros Hn [(s' & Hk' & H1)|(s' & Hk' & H2)]; apply Hn;
        assert (s' = s) as -> by congruence; auto.
  - intros [k s]. cbn [snd]. unfold Database.created_before, Database.has_row.
    destruct (dismissed d !! id s); [|discriminate].
    intros _. cbn [negb]. now rewrite andb_false_r.
Qed.

(** X25. A cached page expires with the cleanup: an entry written by
    [cache_content] at time [t] is found by [get_cached_content] after a
    cleanup at time [now] exactly when it is not older than
    [content_cache_days], and then with its content, source and browser time
    as written. *)
Theorem cached_content_expires (t now dismissed_hours max_age_days content_cache_days : Z)
    (u : string) (c src : option string) (ms : Q) (d : db) :
  (fun r => (cache_content_ r, cache_source r, cache_browser_ms r))
    <$> Database.get_cached_content (Some u)
          (Database.cleanup_stories now dismissed_hours max_age_days content_cache_days
             (Database.cache_content t (Some u) c src ms d)).2
  = if t <? now - content_cache_days * 24 * 3600 then None else Some (c, src, ms).
Proof.
  destruct (cleanup_stories_shape now dismissed_hours max_age_days content_cache_days
              (Database.cache_content t (Some u) c src ms d))
    as (dis & old & _ & _ & _ & _ & _ & _ & Hfu).
  unfold Database.get_cached_content. rewrite Hfu.
  unfold Database.cache_content. cbn [fetched_urls with_fetched_urls].
  destruct (t <? now - content_cache_days * 24 * 3600) eqn:Hold.
  - rewrite (map_lookup_filter_None_2 _ _ u); [reflexivity|].
    right. intros x. rewrite lookup_insert_eq. intros [= <-]. cbn. congruence.
  - rewrite (map_lookup_filter_Some_2 _ _ u (mkCache c src ms t));
      [reflexivity|apply lookup_insert_eq|exact Hold].
Qed.

Lemma cleanup_deletes_exactly_the_expired_example :
  keyed_by_id Sample.listing_db
  /\ (stories (Database.cleanup_stories (165 + 25 * 3600) 24 14 90 Sample.listing_db).2
        !! 16
      = Some (Sample.titled 16 "For the weekend" "https://d.example/w" "d.example" 110)
      <-> stories Sample.listing_db !! 16
          = Some (Sample.titled 16 "For the weekend" "https://d.example/w" "d.example" 110)
          /\ spared (165 + 25 * 3600) 24 14 Sample.listing_db
               (Sample.titled 16 "For the weekend" "https://d.example/w" "d.example" 110)).
Proof.
  assert (Hwf : keyed_by_id Sample.listing_db).
  { unfold keyed_by_id. by_evaluation. }
  split; [exact Hwf|].
  exact (cleanup_deletes_exactly_the_expired (165 + 25 * 3600) 24 14 90
           Sample.listing_db 16
           (Sample.titled 16 "For the weekend" "https://d.example/w" "d.example" 110)
           Hwf).
Defined.

Lemma cleanup_keeps_references_example :
  read_later_references_stories Sample.listing_db
  /\ read_later_references_stories
       (Database.cleanup_stories (165 + 25 * 3600) 24 0 90 Sample.listing_db).2.
Proof.
  assert (Hfk : read_later_references_stories Sample.listing_db).
  { unfold read_later_references_stories. by_evaluation. }
  split; [exact Hfk|].
  exact (proj1 (cleanup_keeps_references (165 + 25 * 3600) 24 0 90 Sample.listing_db)
           Hfk).
Defined.

Lemma cleanup_counts_the_deleted_example :
  keyed_by_id Sample.listing_db
  /\ 0 <= (Database.cleanup_stories (165 + 25 * 3600) 24 0 90 Sample.listing_db).1.1
  /\ 0 <= (Database.cleanup_stories (165 + 25 * 3600) 24 0 90 Sample.listing_db).1.2
  /\ (Database.cleanup_stories (165 + 25 * 3600) 24 0 90 Sample.listing_db).1.1
     + (Database.cleanup_stories (165 + 25 * 3600) 24 0 90 Sample.listing_db).1.2
     = Z.of_nat (size (stories Sample.listing_db))
       - Z.of_nat (size (stories (Database.cleanup_stories (165 + 25 * 3600) 24 0 90
                                    Sample.listing_db).2)).
Proof.
  assert (Hwf : keyed_by_id Sample.listing_db).
  { unfold keyed_by_id. by_evaluation. }
  split; [exact Hwf|].
  exact (cleanup_counts_the_deleted (165 + 25 * 3600) 24 0 90 Sample.listing_db Hwf).
Defined.

(** ** A story seen for the first time *)

(** X26. The first upsert of a story whose values SQLite can store (text
    without a lone surrogate, as the text of the store model is, and
    integers of the 64-bit range): the new row carries the dict's id,
    title and url and no attempts, and no other row changes. A self post
    (text and no url) is stored as done with source [hn_text], its stored
    content decompresses to the text, and it is never a candidate of the
    content queue; any other story is stored as pending without content.
    The round trip rests on the contracts of the codecs. *)
Theorem first_upsert_stores_story (C : Codec) (L : CodecLaws C)
    (now max_attempts : Z) (st : story_dict) (d : db) :
  fits_int64 (d_id st) = true ->
  fits_int64 (d_score st) = true ->
  fits_int64 (d_descendants st) = true ->
  (forall t, d_time st = Some t -> fits_int64 t = true) ->
  stories d !! d_id st = None ->
  exists s,
    stories (Database.upsert_story now st d) !! d_id st = Some s
    /\ id s = d_id st /\ title s = d_title st /\ url s = d_url st
    /\ content_attempts s = 0
    /\ (self_text st = true ->
        content_status s = Done /\ content_source s = Some "hn_text"
        /\ (exists c, content s = Some c /\ Some (decompress_content c) = d_text st)
        /\ Database.claimable max_attempts s = false)
    /\ (self_text st = false -> content_status s = Pending /\ content s = None)
    /\ forall k, k <> d_id st ->
         stories (Database.upsert_story now st d) !! k = stories d !! k.
Proof.
  intros _ _ _ _ Hnew. unfold Database.upsert_story, self_text. rewrite Hnew.
  destruct (negb (Database.truthy_opt (d_url st)) && Database.truthy_opt (d_text st))
    eqn:Hself; rewrite stories_with_stories, lookup_insert_eq;
    eexists; (split; [reflexivity|]); cbn;
    repeat (split; [reflexivity|]).
  - split; [|split; [discriminate|]].
    + intros _. repeat (split; [reflexivity|]). split; [|reflexivity].
      eexists. split; [reflexivity|].
      apply andb_true_iff in Hself as [_ Htext]. unfold Database.truthy_opt in Htext.
      destruct (d_text st) as [x|]; [|discriminate]. cbn [default]. unfold Datatypes.id.
      rewrite decompress_compress; [reflexivity|]. intros ->. discriminate.
    + intros k Hk. now rewrite lookup_insert_ne.
  - split; [discriminate|]. split; [auto|].
    intros k Hk. now rewrite lookup_insert_ne.
Qed.

Lemma first_upsert_stores_story_example :
  (fits_int64 (d_id Sample.self_post_dict) = true
   /\ fits_int64 (d_score Sample.self_post_dict) = true
   /\ fits_int64 (d_descendants Sample.self_post_dict) = true
   /\ (forall t, d_time Sample.self_post_dict = Some t -> fits_int64 t = true)
   /\ stories Sample.queue_db !! d_id Sample.self_post_dict = None)
  /\ exists s,
       stories (@Database.upsert_story sample_codec 1000 Sample.self_post_dict
                  Sample.queue_db) !! d_id Sample.self_post_dict = Some s
       /\ id s = d_id Sample.self_post_dict /\ title s = d_title Sample.self_post_dict
       /\ url s = d_url Sample.self_post_dict
       /\ content_attempts s = 0
       /\ (self_text Sample.self_post_dict = true ->
           content_status s = Done /\ content_source s = Some "hn_text"
           /\ (exists c, content s = Some c
                         /\ Some (@decompress_content sample_codec c)
                            = d_text Sample.self_post_dict)
           /\ Database.claimable 3 s = false)
       /\ (self_text Sample.self_post_dict = false ->
           content_status s = Pending /\ content s = None)
       /\ forall k, k <> d_id Sample.self_post_dict ->
            stories (@Database.upsert_story sample_codec 1000 Sample.self_post_dict
                       Sample.queue_db) !! k
            = stories Sample.queue_db !! k.
Proof.
  assert (Hnew : stories Sample.queue_db !! d_id Sample.self_post_dict = None)
    by reflexivity.
  assert (Htime : forall t, d_time Sample.self_post_dict = Some t -> fits_int64 t = true)
    by (intros t [= <-]; reflexivity).
  split; [repeat split; assumption|].
  exact (first_upsert_stores_story sample_codec sample_codec_laws 1000 3
           Sample.self_post_dict Sample.queue_db eq_refl eq_refl eq_refl Htime Hnew).
Defined.
